(** * Emerix frontend: a shallow embedding of the React components

    The development follows the JavaScript sources of the frontend
    ([App.js], [HospitalMap], [PredictionCards], [RealTimeUpdates],
    [PulseBackground]).  JavaScript objects used as maps are finite maps
    keyed by strings, arrays are lists, the calls of React state setters are
    recorded as actions, and [Math.random] is an explicit stream of draws.
    The prediction engine of the backend, whose Python sources are not among
    them, is modelled from the design document. *)

From Stdlib Require Import QArith Qround Qabs Qminmax Ascii Lqa.
From stdpp Require Import gmap strings list fin_maps pretty sorting.

Local Open Scope string_scope.

(** ** JavaScript numbers

    A number is a rational, one of the two infinities, or NaN.  Every double
    is one of these, and the comparisons of the sources against the literals
    30 and 60 are exact on them.  Arithmetic is exact: rounding of results
    to the nearest double and the sign of zero are not represented. *)

Module Num.

Local Open Scope Q_scope.

Inductive number :=
| Fin (q : Q)
| PosInf
| NegInf
| NaN.

Definition of_Z (z : Z) : number := Fin (inject_Z z).
Definition of_nat (n : nat) : number := of_Z (Z.of_nat n).

(** [a < b] *)
Definition lt (a b : number) : bool :=
  match a, b with
  | NaN, _ | _, NaN => false
  | Fin x, Fin y => if Qlt_le_dec x y then true else false
  | NegInf, (Fin _ | PosInf) => true
  | Fin _, PosInf => true
  | _, _ => false
  end.

(** [a > b] *)
Definition gt (a b : number) : bool := lt b a.

(** [a + b] *)
Definition add (a b : number) : number :=
  match a, b with
  | NaN, _ | _, NaN => NaN
  | Fin x, Fin y => Fin (x + y)
  | PosInf, NegInf | NegInf, PosInf => NaN
  | PosInf, _ | _, PosInf => PosInf
  | NegInf, _ | _, NegInf => NegInf
  end.

(** [-a] *)
Definition neg (a : number) : number :=
  match a with
  | Fin x => Fin (- x)
  | PosInf => NegInf
  | NegInf => PosInf
  | NaN => NaN
  end.

(** [a - b] *)
Definition sub (a b : number) : number := add a (neg b).

Definition is_zero (q : Q) : bool := Qeq_bool q 0.
Definition is_neg (q : Q) : bool := if Qlt_le_dec q 0 then true else false.

(** [a / b]: a zero divisor gives NaN or an infinity, never an exception. *)
Definition div (a b : number) : number :=
  match a, b with
  | NaN, _ | _, NaN => NaN
  | Fin x, Fin y =>
      if is_zero y then
        if is_zero x then NaN else if is_neg x then NegInf else PosInf
      else Fin (x / y)
  | Fin _, (PosInf | NegInf) => Fin 0
  | PosInf, Fin y => if is_neg y then NegInf else PosInf
  | NegInf, Fin y => if is_neg y then PosInf else NegInf
  | _, _ => NaN
  end.

(** [Math.round(a)]: the nearest integer, halves towards plus infinity. *)
Definition round (a : number) : number :=
  match a with
  | Fin x => of_Z (Qfloor (x + (1 # 2)))
  | _ => a
  end.

(** Truthiness of a number: everything but zero and NaN. *)
Definition truthy (a : number) : bool :=
  match a with
  | Fin x => negb (is_zero x)
  | NaN => false
  | _ => true
  end.

(** [a || b] on numbers. *)
Definition or_else (a b : number) : number := if truthy a then a else b.

(** [field || d] for a field that may be absent. *)
Definition field_or (field : option number) (d : number) : number :=
  match field with
  | Some w => or_else w d
  | None => d
  end.

End Num.

Import Num.

Coercion Num.of_Z : Z >-> number.

(** ** JavaScript values as [response.json()] produces them

    [JUndefined] is never parsed from JSON; it is what reading an absent
    property gives. *)

#[warnings="-register-all"]
Inductive jsval :=
| JUndefined
| JNull
| JBool (b : bool)
| JNum (x : number)
| JStr (s : string)
| JArr (l : list jsval)
| JObj (m : gmap string jsval).

(** The outcome of [await fetch(...)] followed by [await response.json()]:
    either of the two rejected ([Threw]), or the parsed body. *)
Inductive fetched (A : Type) :=
| Threw
| Body (data : A).

Arguments Threw {A}.
Arguments Body {A} data.

Module Js.

Definition truthy (v : jsval) : bool :=
  match v with
  | JUndefined | JNull => false
  | JBool b => b
  | JNum x => Num.truthy x
  | JStr s => negb (bool_decide (s = EmptyString))
  | JArr _ | JObj _ => true
  end.



(** [s || d] on strings that may be absent. *)
Definition string_or (s : option string) (d : string) : string :=
  match s with
  | Some m => if bool_decide (m = EmptyString) then d else m
  | None => d
  end.

Section ToString.

(** The conversion of a number to a string is the runtime's. *)
Variable NumberToString : number -> string.

(** [`${v}`]: an array prints its elements separated by commas, with
    [null] and [undefined] elements printed as nothing. *)
Fixpoint ToString (v : jsval) : string :=
  match v with
  | JUndefined => "undefined"
  | JNull => "null"
  | JBool true => "true"
  | JBool false => "false"
  | JNum x => NumberToString x
  | JStr s => s
  | JArr l =>
      let item (e : jsval) : string :=
        match e with
        | JUndefined | JNull => EmptyString
        | _ => ToString e
        end in
      (fix join (l : list jsval) : string :=
         match l with
         | [] => EmptyString
         | [e] => item e
         | e :: l' => item e +:+ "," +:+ join l'
         end) l
  | JObj _ => "[object Object]"
  end.

End ToString.

(** A number printer that is the runtime's on the integers of ordinary
    size and on the three special values; the scenarios below use no other
    number. *)
Definition integerToString (x : number) : string :=
  match x with
  | Fin q => pretty (Qfloor q)
  | PosInf => "Infinity"
  | NegInf => "-Infinity"
  | NaN => "NaN"
  end.

End Js.

(** ** Wait-time buckets *)

(** A prediction as the frontend reads it.  A field that is absent from the
    object (or [null]) is [None]. *)
Record Prediction := {
  current_wait_time : option number;
  confidence : option number;
  prediction_method : option string;
  recommendation : option string;
  factors : option (list string);
}.

Record Hospital := {
  id : string;
  name : string;
  address : option string;
  coordinates : Q * Q;
  rating : option number;
  distance_miles : option number;
}.

Module HospitalMap.

Definition getWaitTimeColor (waitTime : number) : string :=
  if lt waitTime 30%Z then "#10b981"
  else if lt waitTime 60%Z then "#f59e0b"
  else "#dc2626".

Definition getWaitTimeClass (waitTime : number) : string :=
  if lt waitTime 30%Z then "low"
  else if lt waitTime 60%Z then "medium"
  else "high".


(** [prediction?.current_wait_time || 30] for one hospital marker. *)
Definition waitTime (predictions : gmap string Prediction) (hospital : Hospital)
  : number :=
  let prediction := predictions !! id hospital in
  field_or (prediction ≫= current_wait_time) 30%Z.

(** What a marker shows: the minutes inside the disc and its colour. *)
Definition marker (predictions : gmap string Prediction) (hospital : Hospital)
  : number * string :=
  let w := waitTime predictions hospital in (w, getWaitTimeColor w).

End HospitalMap.

Module PredictionCards.

Definition getWaitTimeClass (waitTime : number) : string :=
  if lt waitTime 30%Z then "low"
  else if lt waitTime 60%Z then "medium"
  else "high".

Definition getWaitTimeLabel (waitTime : number) : string :=
  if lt waitTime 30%Z then "Low wait"
  else if lt waitTime 60%Z then "Medium wait"
  else "High wait".

(** [prediction?.current_wait_time || 30] for one card. *)
Definition currentWait (predictions : gmap string Prediction) (hospital : Hospital)
  : number :=
  let prediction := predictions !! id hospital in
  field_or (prediction ≫= current_wait_time) 30%Z.

(** What a card shows: the minutes, the class of the card, and the label of
    the recommendation row, which is rendered only under [prediction &&]. *)
Definition card (predictions : gmap string Prediction) (hospital : Hospital)
  : number * string * option string :=
  let prediction := predictions !! id hospital in
  let currentWait := currentWait predictions hospital in
  let waitClass := getWaitTimeClass currentWait in
  (currentWait, waitClass,
   match prediction with
   | Some _ => Some (getWaitTimeLabel currentWait)
   | None => None
   end).



End PredictionCards.

(** The three buckets, and how each frontend rendering names them. *)
Inductive bucket := Low | Medium | High.

Definition bucket_of_class (c : string) : option bucket :=
  if decide (c = "low") then Some Low
  else if decide (c = "medium") then Some Medium
  else if decide (c = "high") then Some High
  else None.

Definition bucket_of_label (l : string) : option bucket :=
  if decide (l = "Low wait") then Some Low
  else if decide (l = "Medium wait") then Some Medium
  else if decide (l = "High wait") then Some High
  else None.

Definition bucket_of_color (c : string) : option bucket :=
  if decide (c = "#10b981") then Some Low
  else if decide (c = "#f59e0b") then Some Medium
  else if decide (c = "#dc2626") then Some High
  else None.

(** ** The real-time status panel *)

Module RealTimeUpdates.

Record Update := {
  timestamp : Z;
  predictions : gmap string Prediction;
  type : string;
}.

(** [Object.values(o)] and [Object.keys(o).length] *)
Definition values (o : gmap string Prediction) : list Prediction :=
  (map_to_list o).*2.

Definition keys_length (o : gmap string Prediction) : nat := size o.

(** The effect on [predictions]: [now] is the value of [new Date()], [prev]
    the history the state updater receives. *)
Definition recordUpdate (now : Z) (predictions : gmap string Prediction)
    (prev : list Update) : list Update :=
  if (0 <? keys_length predictions)%nat then
    let newUpdate :=
      {| timestamp := now; predictions := predictions;
         type := "prediction_update" |} in
    newUpdate :: take 9 prev
  else prev.

(** The history after a sequence of changes of [predictions], oldest change
    first, starting from the initial state [[]]. *)
Definition history (changes : list (Z * gmap string Prediction)) : list Update :=
  foldl (fun prev c => recordUpdate c.1 c.2 prev) [] changes.

(** The entry a change of [predictions] leaves in the history, if any. *)
Definition entry_of (c : Z * gmap string Prediction) : option Update :=
  if (0 <? keys_length c.2)%nat then
    Some {| timestamp := c.1; predictions := c.2; type := "prediction_update" |}
  else None.

(** The bounded window in words: of the changes that left an entry, the ten
    most recent, the newest first. *)
Definition newest_first_window (changes : list (Z * gmap string Prediction))
    : list Update :=
  take 10 (reverse (omap entry_of changes)).

Definition getAverageWaitTime (predictions : gmap string Prediction) : number :=
  let waitTimes := (fun p => field_or (current_wait_time p) 0%Z) <$> values predictions in
  if (0 <? length waitTimes)%nat then
    round (div (foldl (fun a b => add a b) (0%Z : number) waitTimes)
               (of_nat (length waitTimes)))
  else 0%Z.

Definition getSystemStatus (predictions : gmap string Prediction) : string * string :=
  let avgWait := getAverageWaitTime predictions in
  if lt avgWait 30%Z then ("Good", "#10b981")
  else if lt avgWait 60%Z then ("Moderate", "#f59e0b")
  else ("High Load", "#dc2626").

(** The divisor of the average over the entry at index 1. *)
Definition previousDivisor (u : Update) : nat := keys_length (predictions u).

(** [updateHistory[1]?.predictions ? sum / count : 0]; the [predictions] of
    an entry is an object, hence truthy. *)
Definition previousAverage (updateHistory : list Update) : number :=
  match updateHistory !! 1%nat with
  | Some u =>
      div (foldl (fun sum p => add sum (field_or (current_wait_time p) 0%Z))
                 (0%Z : number) (values (predictions u)))
          (of_nat (previousDivisor u))
  | None => 0%Z
  end.

Definition getTrendDirection (updateHistory : list Update)
    (predictions : gmap string Prediction) : string :=
  if (length updateHistory <? 2)%nat then "stable"
  else
    let current := getAverageWaitTime predictions in
    let previous := previousAverage updateHistory in
    if gt current (add previous 5%Z) then "increasing"
    else if lt current (sub previous 5%Z) then "decreasing"
    else "stable".

End RealTimeUpdates.

(** ** The decorative pulse grid *)

Module PulseBackground.

Record Element := {
  type : option string;
  id : string;
  delay : Q;
  top : Q;
  left : Q;
  rotating : bool;
}.

Record Cell := {
  cellId : nat;
  elements : list Element;
}.

Definition shapeTypes : list string := ["dot"; "circle"; "square"].

(** [a[k]] for a number [k]: [undefined] unless [k] is an index of [a]. *)
Definition at_index {A} (a : list A) (k : Z) : option A :=
  if (k <? 0)%Z then None else a !! Z.to_nat k.

(** [list.includes(x)] where [x] may be [undefined]. *)
Definition includes (l : list string) (x : option string) : bool :=
  match x with
  | Some s => bool_decide (s ∈ l)
  | None => false
  end.

(** [`${x}`] for a string that may be [undefined]. *)
Definition show (x : option string) : string := default "undefined" x.

(** A computation that draws from [Math.random]: from the index of the next
    draw to a result and the index after it. *)
Definition Rand (A : Type) : Type := nat -> A * nat.

#[local] Instance Rand_ret : MRet Rand := fun A (a : A) n => (a, n).

#[local] Instance Rand_bind : MBind Rand :=
  fun A B (f : A -> Rand B) (m : Rand A) n => let (a, n') := m n in f a n'.

Section Generate.

(** The successive results of [Math.random()]. *)
Variable random : nat -> Q.

Definition Math_random : Rand Q := fun n => (random n, S n).

(** One pass of the body of [for (let j = 0; j < numElements; j++)]. *)
Definition element (i j : nat) : Rand Element :=
  r ← Math_random;
  let randomType := at_index shapeTypes (Qfloor (r * 3)) in
  isRotating ←
    (if includes ["diamond"; "cross"; "star"] randomType
     then r' ← Math_random; mret (if Qlt_le_dec (7 # 10) r' then true else false)
     else mret false : Rand bool);
  delay ← Math_random;
  top ← Math_random;
  left ← Math_random;
  mret {| type := randomType;
          id := pretty i +:+ "-" +:+ show randomType +:+ "-" +:+ pretty j;
          delay := delay * 6;
          top := top * 80 + 10;
          left := left * 80 + 10;
          rotating := isRotating |}.

(** The loop, with [todo] passes left, starting at [j]. *)
Fixpoint elements_from (i j todo : nat) : Rand (list Element) :=
  match todo with
  | O => mret []
  | S todo' =>
      e ← element i j;
      es ← elements_from i (S j) todo';
      mret (e :: es)
  end.

Definition cell (i : nat) : Rand Cell :=
  r ← Math_random;
  cellElements ←
    (if Qlt_le_dec (8 # 10) r then
       r2 ← Math_random;
       let numElements := (Qfloor (r2 * 2) + 1)%Z in
       elements_from i 0 (Z.to_nat numElements)
     else mret [] : Rand (list Element));
  mret {| cellId := i; elements := cellElements |}.

(** [Array.from({ length }, (_, i) => ...)], cells [i], [i+1], ... *)
Fixpoint cells_from (i length : nat) : Rand (list Cell) :=
  match length with
  | O => mret []
  | S length' =>
      c ← cell i;
      cs ← cells_from (S i) length';
      mret (c :: cs)
  end.

Definition newElements : list Cell := (cells_from 0 300 0).1.

End Generate.

(** What is expected of an element and of a cell of the grid. *)
Definition element_ok (e : Element) : Prop :=
  rotating e = false /\ type e ∈ (Some <$> shapeTypes).

Definition cell_ok (c : Cell) : Prop :=
  (length (elements c) <= 2)%nat /\ Forall element_ok (elements c).

End PulseBackground.

(** ** The application state ([App.js]) *)

(** Bodies of the API responses, as far as the frontend reads them. *)
Module Api.

Record UserLocation := {
  latitude : Q;
  longitude : Q;
  address : option string;
}.

(** [POST /api/location]; an absent (or [null]) field is [None]. *)
Record LocationData := {
  status : option string;
  user_location : option UserLocation;
  hospitals : option (list Hospital);
  predictions : option (gmap string Prediction);
  error : option string;
}.

(** [GET /api/predictions] *)
Record PredictionsData := {
  current_predictions : option (gmap string Prediction);
}.

End Api.

Module App.

Record State := {
  hospitals : option (list Hospital);
  predictions : option (gmap string Prediction);
  loading : bool;
  error : option string;
  userLocation : option Api.UserLocation;
  locationSet : bool;
}.

(** The arguments of [useState]. *)
Definition initial : State :=
  {| hospitals := Some []; predictions := Some ∅; loading := true;
     error := None; userLocation := None; locationSet := false |}.

(** A call of a state setter. *)
Inductive action :=
| setHospitals (v : option (list Hospital))
| setPredictions (v : option (gmap string Prediction))
| setLoading (v : bool)
| setError (v : option string)
| setUserLocation (v : option Api.UserLocation)
| setLocationSet (v : bool).

Definition apply (s : State) (a : action) : State :=
  match a with
  | setHospitals v =>
      {| hospitals := v; predictions := predictions s; loading := loading s;
         error := error s; userLocation := userLocation s;
         locationSet := locationSet s |}
  | setPredictions v =>
      {| hospitals := hospitals s; predictions := v; loading := loading s;
         error := error s; userLocation := userLocation s;
         locationSet := locationSet s |}
  | setLoading v =>
      {| hospitals := hospitals s; predictions := predictions s; loading := v;
         error := error s; userLocation := userLocation s;
         locationSet := locationSet s |}
  | setError v =>
      {| hospitals := hospitals s; predictions := predictions s;
         loading := loading s; error := v; userLocation := userLocation s;
         locationSet := locationSet s |}
  | setUserLocation v =>
      {| hospitals := hospitals s; predictions := predictions s;
         loading := loading s; error := error s; userLocation := v;
         locationSet := locationSet s |}
  | setLocationSet v =>
      {| hospitals := hospitals s; predictions := predictions s;
         loading := loading s; error := error s;
         userLocation := userLocation s; locationSet := v |}
  end.

(** An asynchronous function is the list of its synchronous runs, in the
    order they execute: a run is the list of setter calls made between two
    points where the function waits for the network.  A run that calls no
    setter is left out. *)
Definition runs := list (list action).

(** The state once a run has executed. *)
Definition commit (s : State) (run : list action) : State := foldl apply s run.

(** The states at the end of each run: those in which the component sits
    while the function waits, and after it has finished. *)
Fixpoint settled (s : State) (rs : runs) : list State :=
  match rs with
  | [] => []
  | run :: rs' => let s' := commit s run in s' :: settled s' rs'
  end.

(** The state after the last run. *)
Definition final (s : State) (rs : runs) : State := foldl commit s rs.

Definition loadPredictions (res : fetched Api.PredictionsData) : runs :=
  match res with
  | Body data => [[setPredictions (Api.current_predictions data); setLoading false]]
  | Threw => [[setError (Some "Failed to load predictions"); setLoading false]]
  end.

(** [setLocation]: [res] is the outcome of the POST, [res'] that of the GET
    of [loadPredictions], which is only issued when the body carries no
    predictions. *)
Definition setLocation (res : fetched Api.LocationData)
    (res' : fetched Api.PredictionsData) : runs :=
  match res with
  | Body data =>
      if bool_decide (Api.status data = Some "success") then
        match Api.predictions data with
        | Some p =>
            [[setUserLocation (Api.user_location data);
              setHospitals (Api.hospitals data);
              setLocationSet true;
              setLoading false;
              setPredictions (Some p)]]
        | None =>
            [setUserLocation (Api.user_location data);
             setHospitals (Api.hospitals data);
             setLocationSet true;
             setLoading false]
            :: loadPredictions res'
        end
      else [[setError (Some (Js.string_or (Api.error data) "Failed to set location"))]]
  | Threw => [[setError (Some "Failed to set location")]]
  end.

(** The value [setLocation] resolves to. *)
Definition setLocation_result (res : fetched Api.LocationData)
    : option Api.LocationData :=
  match res with
  | Body data => Some data
  | Threw => None
  end.

Definition handleLocationSet (locationData : Api.LocationData)
    (res' : fetched Api.PredictionsData) : runs :=
  match Api.predictions locationData with
  | Some p =>
      [[setUserLocation (Api.user_location locationData);
        setHospitals (Api.hospitals locationData);
        setLocationSet true;
        setLoading false;
        setPredictions (Some p)]]
  | None =>
      [setUserLocation (Api.user_location locationData);
       setHospitals (Api.hospitals locationData);
       setLocationSet true;
       setLoading false]
      :: loadPredictions res'
  end.

(** Which of the three [return]s of [App] renders. *)
Inductive view := LocationForm | LoadingScreen | Dashboard.

Definition rendered (s : State) : view :=
  if negb (locationSet s) then LocationForm
  else if loading s then LoadingScreen
  else Dashboard.

(** [{error && <div className="error">{error}</div>}], which the loading
    screen does not contain. *)
Definition errorBanner (s : State) : option string :=
  match rendered s with
  | LoadingScreen => None
  | _ =>
      match error s with
      | Some m => if bool_decide (m = EmptyString) then None else Some m
      | None => None
      end
  end.



End App.

(** ** The location form ([LocationInput]) *)

Module LocationInput.

(** What [handleSubmit] does besides fetching: its own [isLoading] flag, a
    dialog, and the callback into [App]. *)
Inductive effect :=
| setIsLoading (v : bool)
| alert (message : string)
| onLocationSet (data : Api.LocationData).

(** [handleSubmit], for [location] the trimmed text of the input field and
    [res] the outcome of the POST. *)
Definition handleSubmit (location : string) (res : fetched Api.LocationData)
    : list effect :=
  if bool_decide (location = EmptyString) then []
  else
    setIsLoading true
    :: match res with
       | Body data =>
           if bool_decide (Api.status data = Some "success")
           then [onLocationSet data]
           else [alert (Js.string_or (Api.error data) "Failed to set location")]
       | Threw => [alert "Failed to set location"]
       end
    ++ [setIsLoading false].

(** The runs of [App] setters an effect of the form triggers: the callback
    is [App.handleLocationSet]. *)
Definition app_runs (e : effect) (res' : fetched Api.PredictionsData) : App.runs :=
  match e with
  | onLocationSet data => App.handleLocationSet data res'
  | _ => []
  end.

End LocationInput.

(** ** The prediction engine (backend) *)

Module PredictionEngine.


(** Modelled from the spec: the method tag and the recommendation label of
    a prediction (section 3). *)
Inductive method := AI | Fallback.

Inductive label := GoNow | Wait | ConsiderAlternatives.

(** Modelled from the spec: the prediction the engine returns (section 3). *)
Record Prediction := {
  hospital_id : string;
  wait_time : Z;
  confidence : Z;
  factors : list string;
  recommendation : label;
  prediction_method : method;
}.








End PredictionEngine.

(** ** Concrete scenarios *)

Module Scenario.

Definition hospital (i : string) : Hospital :=
  {| id := i; name := "Hospital " +:+ i; address := None;
     coordinates := (0, 0)%Q; rating := None; distance_miles := None |}.

Definition prediction (minutes : Z) : Prediction :=
  {| current_wait_time := Some (Num.of_Z minutes); confidence := None;
     prediction_method := None; recommendation := None; factors := None |}.

(** A session at a first location: one hospital, with its prediction. *)
Definition before : App.State :=
  {| App.hospitals := Some [hospital "er-1"];
     App.predictions := Some {[ "er-1" := prediction 45 ]};
     App.loading := false;
     App.error := None;
     App.userLocation :=
       Some {| Api.latitude := 40; Api.longitude := -74; Api.address := None |};
     App.locationSet := true |}.

(** A successful answer to a relocation that carries no predictions. *)
Definition relocated : Api.LocationData :=
  {| Api.status := Some "success";
     Api.user_location :=
       Some {| Api.latitude := 34; Api.longitude := -118; Api.address := None |};
     Api.hospitals := Some [hospital "er-2"];
     Api.predictions := None;
     Api.error := None |}.

(** The same answer, carrying the predictions of the new hospitals. *)
Definition relocated_with_predictions : Api.LocationData :=
  {| Api.status := Some "success";
     Api.user_location := Api.user_location relocated;
     Api.hospitals := Api.hospitals relocated;
     Api.predictions := Some {[ "er-2" := prediction 20 ]};
     Api.error := None |}.

(** The answer to a location that is not found. *)
Definition not_found : Api.LocationData :=
  {| Api.status := Some "error";
     Api.user_location := None;
     Api.hospitals := None;
     Api.predictions := None;
     Api.error := Some "Location not found" |}.





End Scenario.

(** ** Further parts of the components *)

(** The rows and the icon of the status panel ([RealTimeUpdates]). *)
Module StatusPanel.

(** [getTrendIcon]: the icon, its colour, and whether it is turned by 180
    degrees. *)
Definition getTrendIcon (updateHistory : list RealTimeUpdates.Update)
    (predictions : gmap string Prediction) : string * string * bool :=
  let trend := RealTimeUpdates.getTrendDirection updateHistory predictions in
  if decide (trend = "increasing") then ("TrendingUp", "#dc2626", false)
  else if decide (trend = "decreasing") then ("TrendingUp", "#10b981", true)
  else ("Activity", "#6b7280", false).

(** The "Recent Updates" list: [None] is the "No updates yet" box, a row is
    its caption and the timestamp it formats. *)
Definition recentUpdates (updateHistory : list RealTimeUpdates.Update)
    : option (list (string * Z)) :=
  if (0 <? length updateHistory)%nat then
    Some ((fun update =>
             (if decide (RealTimeUpdates.type update = "prediction_update")
              then "Predictions updated" else "System update",
              RealTimeUpdates.timestamp update))
          <$> take 5 updateHistory)
  else None.

End StatusPanel.

(** The remaining asynchronous functions of [App]. *)
Module AppCalls.

Import App.







End AppCalls.

(** The "Use My Current Location" button of [LocationInput]. *)
Module CurrentLocation.

Import LocationInput.

(** What [navigator.geolocation] does with the request. *)
Inductive geolocation :=
| Unsupported
| PositionError
| Position (latitude longitude : number).

(** The location text posted for a position. *)
Definition location_text (NumberToString : number -> string)
    (latitude longitude : number) : string :=
  NumberToString latitude +:+ ", " +:+ NumberToString longitude.

Definition handleGetCurrentLocation (geo : geolocation)
    (res : fetched Api.LocationData) : list effect :=
  match geo with
  | Unsupported => [alert "Geolocation is not supported by this browser."]
  | PositionError =>
      [setIsLoading true;
       alert "Unable to get your current location. Please enter a location manually.";
       setIsLoading false]
  | Position _ _ =>
      setIsLoading true
      :: match res with
         | Body data =>
             if bool_decide (Api.status data = Some "success")
             then [onLocationSet data]
             else [alert (Js.string_or (Api.error data) "Failed to set location")]
         | Threw => [alert "Failed to set location"]
         end
      ++ [setIsLoading false]
  end.

(** The [isLoading] flag of the form once the effects have happened. *)
Definition isLoading_after (isLoading : bool) (effects : list effect) : bool :=
  foldl (fun b e => match e with setIsLoading v => v | _ => b end)
        isLoading effects.

(** The dialogs shown, and the answers handed to [App]. *)
Definition alerts (effects : list effect) : list string :=
  omap (fun e => match e with alert m => Some m | _ => None end) effects.

Definition handed_over (effects : list effect) : list Api.LocationData :=
  omap (fun e => match e with onLocationSet d => Some d | _ => None end) effects.

(** The runs of [App] setters a list of effects triggers. *)
Definition app_runs_of (effects : list effect)
    (res' : fetched Api.PredictionsData) : App.runs :=
  effects ≫= (fun e => app_runs e res').

End CurrentLocation.

(** What [HospitalMap] and [PredictionCards] return. *)
Module Views.

(** The sum a [reduce] over the hospitals computes for one coordinate. *)
Definition coordinate_sum (coordinate : Hospital -> Q) (hospitals : list Hospital)
    : number :=
  foldl (fun sum h => add sum (Fin (coordinate h))) (0%Z : number) hospitals.

(** [userLocation?.latitude || (sum / hospitals.length)], and likewise for
    the longitude. *)
Definition center (hospitals : list Hospital)
    (userLocation : option Api.UserLocation) : number * number :=
  (field_or (Fin ∘ Api.latitude <$> userLocation)
            (div (coordinate_sum (fun h => (coordinates h).1) hospitals)
                 (of_nat (length hospitals))),
   field_or (Fin ∘ Api.longitude <$> userLocation)
            (div (coordinate_sum (fun h => (coordinates h).2) hospitals)
                 (of_nat (length hospitals)))).

Inductive map_view :=
| NoHospitals
| Map (center : number * number) (userMarker : option (Q * Q))
      (markers : list (number * string)).

(** [HospitalMap]: [None] is the [TypeError] of reading a property of an
    [undefined] predictions object. *)
Definition HospitalMap (hospitals : option (list Hospital))
    (predictions : option (gmap string Prediction))
    (userLocation : option Api.UserLocation) : option map_view :=
  match hospitals with
  | None | Some [] => Some NoHospitals
  | Some hs =>
      match predictions with
      | Some p =>
          Some (Map (center hs userLocation)
                    ((fun u => (Api.latitude u, Api.longitude u)) <$> userLocation)
                    (HospitalMap.marker p <$> hs))
      | None => None
      end
  end.

Inductive cards_view :=
| LoadingCard
| Cards (cards : list (number * string * option string)).

(** [PredictionCards]: [None] is the [TypeError] of calling [map] on an
    [undefined] hospitals list or of reading a property of an [undefined]
    predictions object. *)
Definition PredictionCards (hospitals : option (list Hospital))
    (predictions : option (gmap string Prediction)) (loading : bool)
    : option cards_view :=
  if loading then Some LoadingCard
  else
    match hospitals with
    | None => None
    | Some [] => Some (Cards [])
    | Some hs =>
        match predictions with
        | Some p => Some (Cards (PredictionCards.card p <$> hs))
        | None => None
        end
    end.

(** The dashboard of [App], which passes neither [userLocation] nor
    [loading] to its two children. *)
Definition dashboard (s : App.State) : option (map_view * cards_view) :=
  m ← HospitalMap (App.hospitals s) (App.predictions s) None;
  c ← PredictionCards (App.hospitals s) (App.predictions s) false;
  Some (m, c).

End Views.

(** The icons and classes [PredictionCards] derives from labels. *)
Module CardIcons.

(** [toLowerCase] on the letters A to Z; other characters are kept, those
    outside ASCII included. *)
Definition lower (c : ascii) : ascii :=
  let n := nat_of_ascii c in
  if (65 <=? n)%nat && (n <=? 90)%nat then ascii_of_nat (n + 32) else c.

Fixpoint toLowerCase (s : string) : string :=
  match s with
  | EmptyString => EmptyString
  | String c s' => String (lower c) (toLowerCase s')
  end.

(** [getRecommendationIcon]: the icon and its colour. *)
Definition getRecommendationIcon (waitLabel : option string) : string * string :=
  match toLowerCase <$> waitLabel with
  | Some l =>
      if decide (l = "high wait") then ("AlertCircle", "#dc2626")
      else if decide (l = "medium wait") then ("Clock", "#f59e0b")
      else if decide (l = "low wait") then ("CheckCircle", "#10b981")
      else ("Clock", "#f59e0b")
  | None => ("Clock", "#f59e0b")
  end.

Definition getRecommendationClass (recommendation : option string) : string :=
  match toLowerCase <$> recommendation with
  | Some r =>
      if decide (r = "go now") then "go-now"
      else if decide (r = "wait") then "wait"
      else if decide (r = "consider alternatives") then "alternatives"
      else "wait"
  | None => "wait"
  end.

End CardIcons.

(** ** The node network ([NodeNetworkBackground]) *)

Module NodeNetworkBackground.

Definition CONNECT_DISTANCE : Q := 18.

Record Node := {
  id : nat;
  x : Q;
  y : Q;
}.

Record Edge := {
  edge_id : string;
  a : Node;
  b : Node;
  opacity : Q;
}.

(** The second step of [nodes]: [list.map(n => ...)], for [raw] the list of
    the first step. *)
Definition normalize (raw : list Node) : list Node :=
  (fun n => {| id := id n;
               x := Qmax 6 (Qmin 94 (Qabs (x n)));
               y := Qmax 6 (Qmin 94 (Qabs (y n))) |}) <$> raw.

Section Edges.

(** [Math.sqrt] is the runtime's. *)
Variable sqrt : Q -> Q.

Definition distance (a b : Node) : Q :=
  let dx := (x a - x b)%Q in
  let dy := (y a - y b)%Q in
  sqrt (dx * dx + dy * dy)%Q.

(** The inner loop for [nodes[i] = a]: [rest] holds [nodes[j]], [nodes[j+1]],
    and so on. *)
Fixpoint inner (i : nat) (a : Node) (j : nat) (rest : list Node) : list Edge :=
  match rest with
  | [] => []
  | b :: rest' =>
      let d := distance a b in
      (if Qlt_le_dec d CONNECT_DISTANCE then
         [{| edge_id := pretty i +:+ "-" +:+ pretty j; a := a; b := b;
             opacity := Qmax (6 # 100) ((18 # 100) - d / 100) |}]
       else [])
      ++ inner i a (S j) rest'
  end.

(** The outer loop from index [i] on: [nodes] holds [nodes[i]], [nodes[i+1]],
    and so on. *)
Fixpoint outer (i : nat) (nodes : list Node) : list Edge :=
  match nodes with
  | [] => []
  | a :: rest => inner i a (S i) rest ++ outer (S i) rest
  end.

Definition edges (nodes : list Node) : list Edge := outer 0 nodes.

(** The edge the loops push for the pair [nodes[i] = na], [nodes[j] = nb]. *)
Definition linked (i j : nat) (na nb : Node) (e : Edge) : Prop :=
  a e = na /\ b e = nb /\
  edge_id e = pretty i +:+ "-" +:+ pretty j /\
  (distance na nb < CONNECT_DISTANCE)%Q /\
  opacity e = Qmax (6 # 100) ((18 # 100) - distance na nb / 100).

End Edges.

End NodeNetworkBackground.

(** ** Further scenarios *)

Module Samples.





(** Three changes of the predictions, at times 1, 2 and 3. *)
Definition three_changes : list (Z * gmap string Prediction) :=
  [(1%Z, {[ "er-1" := Scenario.prediction 20 ]});
   (2%Z, ∅);
   (3%Z, {[ "er-1" := Scenario.prediction 45 ]})].

(** Three raw nodes, one beyond each bound and one inside. *)
Definition raw_nodes : list NodeNetworkBackground.Node :=
  [ {| NodeNetworkBackground.id := 0; NodeNetworkBackground.x := -3;
       NodeNetworkBackground.y := 50 |};
    {| NodeNetworkBackground.id := 1; NodeNetworkBackground.x := 97;
       NodeNetworkBackground.y := -60 |};
    {| NodeNetworkBackground.id := 2; NodeNetworkBackground.x := 10;
       NodeNetworkBackground.y := 55 |} ].

(** A stand-in for [Math.sqrt] that is exact on the squares of integers. *)
Definition integer_sqrt (v : Q) : Q := inject_Z (Z.sqrt (Qfloor v)).

End Samples.

(** * Properties *)

(** ** The embedding at work *)

Example average_rounds_half_up :
  RealTimeUpdates.getAverageWaitTime
    {[ "er-1" := Scenario.prediction 20; "er-2" := Scenario.prediction 45 ]}
  = Fin 33.
Proof. vm_compute. reflexivity. Qed.

Example trend_increasing :
  RealTimeUpdates.getTrendDirection
    (RealTimeUpdates.history
       [(1%Z, {[ "er-1" := Scenario.prediction 20 ]});
        (2%Z, {[ "er-1" := Scenario.prediction 45 ]})])
    {[ "er-1" := Scenario.prediction 45 ]}
  = "increasing".
Proof. vm_compute. reflexivity. Qed.

Example history_of_25_changes :
  length (RealTimeUpdates.history
            (replicate 25 (1%Z, {[ "er-1" := Scenario.prediction 45 ]})))
  = 10%nat.
Proof. vm_compute. reflexivity. Qed.

Example cell_of_two_squares :
  (fun c => (PulseBackground.type <$> PulseBackground.elements c,
             PulseBackground.id <$> PulseBackground.elements c))
    (PulseBackground.cell (fun _ => 9 # 10) 7 0).1
  = ([Some "square"; Some "square"], ["7-square-0"; "7-square-1"]).
Proof. vm_compute. reflexivity. Qed.

Example empty_cell :
  PulseBackground.elements (PulseBackground.cell (fun _ => 1 # 10) 7 0).1 = [].
Proof. vm_compute. reflexivity. Qed.

Example predictions_loaded_later :
  App.predictions
    (App.final Scenario.before
       (App.setLocation (Body Scenario.relocated)
          (Body {| Api.current_predictions :=
                     Some {[ "er-2" := Scenario.prediction 20 ]} |})))
  = Some {[ "er-2" := Scenario.prediction 20 ]}.
Proof. reflexivity. Qed.

Example array_to_string :
  Js.ToString Js.integerToString
    (JArr [JNum (Num.of_Z 1); JNull; JArr [JStr "a"; JBool true]])
  = "1,,a,true".
Proof. vm_compute. reflexivity. Qed.

(** ** Comparisons of numbers *)

Lemma lt_Fin (x y : Q) : lt (Fin x) (Fin y) = true <-> (x < y)%Q.
Proof.
  unfold lt. destruct (Qlt_le_dec x y) as [H | H]; split; intros H'; try done.
  exfalso. apply (Qlt_irrefl x). eapply Qlt_le_trans; eassumption.
Qed.

Lemma lt_Fin_false (x y : Q) : lt (Fin x) (Fin y) = false <-> (y <= x)%Q.
Proof.
  unfold lt. destruct (Qlt_le_dec x y) as [H | H]; split; intros H'; try done.
  exfalso. apply (Qlt_irrefl x). eapply Qlt_le_trans; eassumption.
Qed.

Lemma lt_NaN_l (b : number) : lt NaN b = false.
Proof. reflexivity. Qed.

Lemma lt_NaN_r (a : number) : lt a NaN = false.
Proof. by destruct a. Qed.

Lemma truthy_false (w : number) :
  truthy w = false <-> w = NaN \/ exists q, w = Fin q /\ (q == 0)%Q.
Proof.
  destruct w as [q | | |]; simpl; unfold is_zero.
  - rewrite negb_false_iff, Qeq_bool_iff. split.
    + intros H. right. by exists q.
    + intros [H | (q' & [= <-] & H)]; done.
  - split; [done | intros [H | (q & H & _)]; done].
  - split; [done | intros [H | (q & H & _)]; done].
  - split; [by left | done].
Qed.

(** The three tests of the two thresholds, case by case. *)
Ltac thresholds w :=
  let H30 := fresh "H30" in
  let H60 := fresh "H60" in
  destruct (lt w 30%Z) eqn:H30; destruct (lt w 60%Z) eqn:H60.

(** ** Wait-time buckets *)


(** C2: a wait time below 30 is in the low bucket, one from 30 and below 60
    in the medium bucket, one from 60 on in the high bucket, for the colour
    of the marker, the class of the marker and of the card, and the label of
    the card alike; and for every number whatsoever, NaN and the infinities
    included, the label of the card and the colour of the marker name the
    same bucket. *)
Theorem wait_time_buckets :
  (forall w : Q,
     ((w < 30)%Q ->
        HospitalMap.getWaitTimeColor (Fin w) = "#10b981" /\
        HospitalMap.getWaitTimeClass (Fin w) = "low" /\
        PredictionCards.getWaitTimeClass (Fin w) = "low" /\
        PredictionCards.getWaitTimeLabel (Fin w) = "Low wait") /\
     ((30 <= w)%Q -> (w < 60)%Q ->
        HospitalMap.getWaitTimeColor (Fin w) = "#f59e0b" /\
        HospitalMap.getWaitTimeClass (Fin w) = "medium" /\
        PredictionCards.getWaitTimeClass (Fin w) = "medium" /\
        PredictionCards.getWaitTimeLabel (Fin w) = "Medium wait") /\
     ((60 <= w)%Q ->
        HospitalMap.getWaitTimeColor (Fin w) = "#dc2626" /\
        HospitalMap.getWaitTimeClass (Fin w) = "high" /\
        PredictionCards.getWaitTimeClass (Fin w) = "high" /\
        PredictionCards.getWaitTimeLabel (Fin w) = "High wait")) /\
  (forall w : number,
     is_Some (bucket_of_label (PredictionCards.getWaitTimeLabel w)) /\
     bucket_of_label (PredictionCards.getWaitTimeLabel w)
       = bucket_of_color (HospitalMap.getWaitTimeColor w) /\
     bucket_of_label (PredictionCards.getWaitTimeLabel w)
       = bucket_of_class (PredictionCards.getWaitTimeClass w) /\
     bucket_of_label (PredictionCards.getWaitTimeLabel w)
       = bucket_of_class (HospitalMap.getWaitTimeClass w)).
Proof.
  split.
  - intros w.
    unfold HospitalMap.getWaitTimeColor, HospitalMap.getWaitTimeClass,
      PredictionCards.getWaitTimeClass, PredictionCards.getWaitTimeLabel.
    split; [| split].
    + intros Hw. apply (lt_Fin w 30) in Hw.
      change (Fin 30) with (of_Z 30) in Hw. by rewrite Hw.
    + intros Hlo Hhi. apply (lt_Fin_false w 30) in Hlo. apply (lt_Fin w 60) in Hhi.
      change (Fin 30) with (of_Z 30) in Hlo. change (Fin 60) with (of_Z 60) in Hhi.
      by rewrite Hlo, Hhi.
    + intros Hw.
      assert (H30 : (30 <= w)%Q) by (eapply Qle_trans; [| exact Hw]; done).
      apply (lt_Fin_false w 60) in Hw. apply (lt_Fin_false w 30) in H30.
      change (Fin 30) with (of_Z 30) in H30. change (Fin 60) with (of_Z 60) in Hw.
      by rewrite H30, Hw.
  - intros w.
    unfold HospitalMap.getWaitTimeColor, HospitalMap.getWaitTimeClass,
      PredictionCards.getWaitTimeClass, PredictionCards.getWaitTimeLabel.
    thresholds w; repeat split; try reflexivity; by eexists.
Qed.

Lemma wait_time_buckets_witness :
  PredictionCards.getWaitTimeLabel (Fin 12) = "Low wait" /\
  HospitalMap.getWaitTimeColor (Fin (91 # 2)) = "#f59e0b" /\
  PredictionCards.getWaitTimeClass (Fin 60) = "high".
Proof.
  destruct wait_time_buckets as [H _].
  split; [| split].
  - destruct (H 12%Q) as [Hlow _]. apply Hlow. reflexivity.
  - destruct (H (91 # 2)%Q) as (_ & Hmed & _).
    apply Hmed; [discriminate | reflexivity].
  - destruct (H 60%Q) as (_ & _ & Hhigh). apply Hhigh. discriminate.
Defined.

(** C8: when the predictions map has no entry for the id of a hospital, or
    the entry has no [current_wait_time], or its [current_wait_time] is 0,
    the card and the marker both show 30 minutes, the card is classed and
    labelled medium and the marker has the colour of the medium bucket. *)
Theorem missing_or_zero_wait_shows_30
    (predictions : gmap string Prediction) (hospital : Hospital) :
  (predictions !! id hospital = None \/
   exists p, predictions !! id hospital = Some p /\
     (current_wait_time p = None \/
      exists q, current_wait_time p = Some (Fin q) /\ (q == 0)%Q)) ->
  PredictionCards.currentWait predictions hospital = 30%Z /\
  (PredictionCards.card predictions hospital).1 = (Fin 30, "medium") /\
  (forall l, (PredictionCards.card predictions hospital).2 = Some l ->
             l = "Medium wait") /\
  HospitalMap.marker predictions hospital = (Fin 30, "#f59e0b") /\
  HospitalMap.getWaitTimeClass (HospitalMap.waitTime predictions hospital)
    = "medium".
Proof.
  intros H.
  assert (Hw : field_or (predictions !! id hospital ≫= current_wait_time) 30%Z
               = 30%Z).
  { destruct H as [-> | (p & -> & [Hp | (q & Hp & Hq)])]; simpl.
    - reflexivity.
    - by rewrite Hp.
    - rewrite Hp. simpl. unfold or_else.
      assert (Ht : truthy (Fin q) = false)
        by (apply truthy_false; right; by exists q).
      by rewrite Ht. }
  unfold PredictionCards.card, HospitalMap.marker, PredictionCards.currentWait,
    HospitalMap.waitTime.
  rewrite Hw. repeat split; try reflexivity.
  intros l. simpl. destruct (predictions !! id hospital); [| done].
  by intros [= <-].
Qed.

Lemma missing_or_zero_wait_shows_30_witness :
  HospitalMap.marker ∅ (Scenario.hospital "er-1") = (Fin 30, "#f59e0b") /\
  (PredictionCards.card {[ "er-1" := Scenario.prediction 0 ]}
     (Scenario.hospital "er-1")).1 = (Fin 30, "medium").
Proof.
  split.
  - apply (missing_or_zero_wait_shows_30 ∅ (Scenario.hospital "er-1")).
    left. reflexivity.
  - apply (missing_or_zero_wait_shows_30 {[ "er-1" := Scenario.prediction 0 ]}
             (Scenario.hospital "er-1")).
    right. exists (Scenario.prediction 0). split; [reflexivity |].
    right. exists 0%Q. split; reflexivity.
Defined.

(** ** The update history *)

Section History.

Import RealTimeUpdates.

Lemma recordUpdate_entry now predictions prev :
  recordUpdate now predictions prev =
  match entry_of (now, predictions) with
  | Some u => u :: take 9 prev
  | None => prev
  end.
Proof. unfold recordUpdate, entry_of. simpl. by case_match. Qed.

Lemma history_snoc changes c :
  history (changes ++ [c]) = recordUpdate c.1 c.2 (history changes).
Proof. unfold history. by rewrite foldl_snoc. Qed.

Lemma history_window changes : history changes = newest_first_window changes.
Proof.
  unfold newest_first_window.
  induction changes as [| c changes IH] using rev_ind; [done |].
  rewrite history_snoc, recordUpdate_entry, omap_app, IH. simpl.
  destruct c as [now predictions]. simpl.
  destruct (entry_of (now, predictions)) as [u |]; simpl.
  - rewrite reverse_snoc. simpl. by rewrite take_take.
  - by rewrite app_nil_r.
Qed.

Lemma entry_of_nonempty c u : entry_of c = Some u -> (0 < keys_length (predictions u))%nat.
Proof.
  unfold entry_of. destruct (0 <? keys_length c.2)%nat eqn:H; [| done].
  intros [= <-]. simpl. by apply Nat.ltb_lt.
Qed.

Lemma history_nonempty changes :
  Forall (fun u => (0 < keys_length (predictions u))%nat) (history changes).
Proof.
  rewrite history_window. unfold newest_first_window.
  apply Forall_take, Forall_reverse, Forall_forall.
  intros u Hu. apply list_elem_of_omap in Hu as (c & _ & Hc).
  by eapply entry_of_nonempty.
Qed.

End History.

(** C7: after any sequence of changes of [predictions] the history holds at
    most 10 entries; it consists of the most recent changes that left an
    entry, the newest first; a change with a non-empty map puts its entry in
    front of the first 9 entries of the earlier history, and a change with
    an empty map leaves the history as it was. *)
Theorem update_history_bounded (changes : list (Z * gmap string Prediction)) :
  (length (RealTimeUpdates.history changes) <= 10)%nat /\
  RealTimeUpdates.history changes = RealTimeUpdates.newest_first_window changes /\
  (forall now predictions,
     size predictions <> 0%nat ->
     RealTimeUpdates.history (changes ++ [(now, predictions)]) =
       {| RealTimeUpdates.timestamp := now;
          RealTimeUpdates.predictions := predictions;
          RealTimeUpdates.type := "prediction_update" |}
       :: take 9 (RealTimeUpdates.history changes)) /\
  (forall now predictions,
     size predictions = 0%nat ->
     RealTimeUpdates.history (changes ++ [(now, predictions)]) =
       RealTimeUpdates.history changes) /\
  Forall (fun u => size (RealTimeUpdates.predictions u) <> 0%nat)
         (RealTimeUpdates.history changes).
Proof.
  split; [| split; [| split; [| split]]].
  - rewrite history_window. unfold RealTimeUpdates.newest_first_window.
    rewrite length_take. lia.
  - apply history_window.
  - intros now predictions Hne. rewrite history_snoc. simpl.
    unfold RealTimeUpdates.recordUpdate, RealTimeUpdates.keys_length.
    destruct (0 <? size predictions)%nat eqn:H; [done |].
    apply Nat.ltb_ge in H. lia.
  - intros now predictions He. rewrite history_snoc. simpl.
    unfold RealTimeUpdates.recordUpdate, RealTimeUpdates.keys_length.
    by rewrite He.
  - eapply Forall_impl; [apply history_nonempty |].
    intros u Hu. unfold RealTimeUpdates.keys_length in Hu. simpl in Hu. lia.
Qed.

Lemma update_history_bounded_witness :
  RealTimeUpdates.history
    ([(1%Z, ∅)] ++ [(2%Z, {[ "er-1" := Scenario.prediction 20 ]})]) =
    {| RealTimeUpdates.timestamp := 2;
       RealTimeUpdates.predictions := {[ "er-1" := Scenario.prediction 20 ]};
       RealTimeUpdates.type := "prediction_update" |}
    :: take 9 (RealTimeUpdates.history [(1%Z, ∅)]) /\
  RealTimeUpdates.history ([] ++ [(1%Z, ∅)]) = RealTimeUpdates.history [].
Proof.
  split.
  - destruct (update_history_bounded [(1%Z, ∅)]) as (_ & _ & Hpush & _).
    apply (Hpush 2%Z {[ "er-1" := Scenario.prediction 20 ]}).
    vm_compute. lia.
  - destruct (update_history_bounded []) as (_ & _ & _ & Hskip & _).
    apply (Hskip 1%Z ∅). reflexivity.
Defined.

(** C9: [getTrendDirection] returns 'increasing', 'decreasing' or 'stable'
    whatever the history and the predictions; it returns 'stable' when the
    history has fewer than 2 entries; and in the history built by the effect
    the entry at index 1, over which the previous average is taken, has a
    non-empty predictions map, so the divisor of that average is not zero. *)
Theorem trend_direction_safe :
  (forall updateHistory predictions,
     RealTimeUpdates.getTrendDirection updateHistory predictions
       ∈ ["increasing"; "decreasing"; "stable"]) /\
  (forall updateHistory predictions,
     (length updateHistory < 2)%nat ->
     RealTimeUpdates.getTrendDirection updateHistory predictions = "stable") /\
  (forall changes u,
     RealTimeUpdates.history changes !! 1%nat = Some u ->
     RealTimeUpdates.previousDivisor u <> 0%nat /\
     forall sum : Q,
       div (Fin sum) (of_nat (RealTimeUpdates.previousDivisor u))
       = Fin (sum / inject_Z (Z.of_nat (RealTimeUpdates.previousDivisor u)))).
Proof.
  split; [| split].
  - intros h predictions. unfold RealTimeUpdates.getTrendDirection.
    repeat case_match; set_solver.
  - intros h predictions Hlen. unfold RealTimeUpdates.getTrendDirection.
    apply Nat.ltb_lt in Hlen. by rewrite Hlen.
  - intros changes u Hu.
    pose proof (history_nonempty changes) as Hall.
    rewrite Forall_forall in Hall.
    assert (Hpos : (0 < RealTimeUpdates.previousDivisor u)%nat).
    { apply Hall. eapply list_elem_of_lookup_2. exact Hu. }
    split; [lia |].
    intros sum. unfold div, of_nat, of_Z.
    destruct (is_zero (inject_Z (Z.of_nat (RealTimeUpdates.previousDivisor u))))
      eqn:E; [| done].
    apply Qeq_bool_iff in E. unfold Qeq in E. simpl in E. lia.
Qed.

Lemma trend_direction_safe_witness :
  RealTimeUpdates.getTrendDirection
    (RealTimeUpdates.history [(1%Z, {[ "er-1" := Scenario.prediction 20 ]})])
    {[ "er-1" := Scenario.prediction 20 ]} = "stable" /\
  RealTimeUpdates.previousDivisor
    {| RealTimeUpdates.timestamp := 1;
       RealTimeUpdates.predictions := {[ "er-1" := Scenario.prediction 20 ]};
       RealTimeUpdates.type := "prediction_update" |} <> 0%nat.
Proof.
  destruct trend_direction_safe as (_ & Hshort & Hdiv). split.
  - apply Hshort. vm_compute. lia.
  - apply (Hdiv [(1%Z, {[ "er-1" := Scenario.prediction 20 ]});
                 (2%Z, {[ "er-1" := Scenario.prediction 35 ]})]).
    reflexivity.
Defined.

(** ** The pulse grid *)

Section Grid.

Import PulseBackground.

Variable random : nat -> Q.

Lemma shape_never_rotates (k : Z) :
  includes ["diamond"; "cross"; "star"] (at_index shapeTypes k) = false.
Proof.
  unfold at_index. destruct (k <? 0)%Z; [done |].
  destruct (Z.to_nat k) as [| [| [| n]]]; reflexivity.
Qed.

Lemma floor_bounds (r : Q) (m : Z) :
  (0 <= r)%Q -> (r < 1)%Q -> (0 < m)%Z ->
  (0 <= Qfloor (r * inject_Z m) < m)%Z.
Proof.
  intros H0 H1 Hm.
  assert (Hlo : (0 <= r * inject_Z m)%Q).
  { apply Qmult_le_0_compat; [done |].
    change 0%Q with (inject_Z 0). rewrite <- Zle_Qle. lia. }
  assert (Hhi : (r * inject_Z m < inject_Z m)%Q).
  { destruct r as [a b]. unfold Qlt in *. simpl in *. nia. }
  split.
  - change 0%Z with (Qfloor (inject_Z 0)) at 1.
    rewrite <- (Qfloor_Z 0). by apply Qfloor_resp_le.
  - rewrite Zlt_Qlt. eapply Qle_lt_trans; [apply Qfloor_le | done].
Qed.

Lemma shape_in_range (r : Q) :
  (0 <= r)%Q -> (r < 1)%Q ->
  at_index shapeTypes (Qfloor (r * 3)) ∈ (Some <$> shapeTypes).
Proof.
  intros H0 H1.
  destruct (floor_bounds r 3 H0 H1) as [Hlo Hhi]; [lia |].
  change (inject_Z 3) with 3%Q in *.
  unfold at_index.
  destruct (Qfloor (r * 3) <? 0)%Z eqn:E; [apply Z.ltb_lt in E; lia |].
  assert (Hn : (Z.to_nat (Qfloor (r * 3)) < 3)%nat) by lia.
  destruct (Z.to_nat (Qfloor (r * 3))) as [| [| [| n]]];
    [set_solver | set_solver | set_solver | lia].
Qed.

Hypothesis in_range : forall k, (0 <= random k)%Q /\ (random k < 1)%Q.

Lemma element_spec i j n : element_ok (element random i j n).1.
Proof.
  unfold element_ok, element, mbind, Rand_bind, mret, Rand_ret, Math_random.
  simpl. rewrite shape_never_rotates. simpl. split; [done |].
  destruct (in_range n). by apply shape_in_range.
Qed.

Lemma elements_from_spec i todo : forall j n,
  length (elements_from random i j todo n).1 = todo /\
  Forall element_ok (elements_from random i j todo n).1.
Proof.
  induction todo as [| todo IH]; intros j n; [by split |].
  simpl. unfold mbind, Rand_bind, mret, Rand_ret.
  destruct (element random i j n) as [e n1] eqn:He.
  destruct (elements_from random i (S j) todo n1) as [es n2] eqn:Hes.
  simpl. destruct (IH (S j) n1) as [Hlen Hok]. rewrite Hes in Hlen, Hok.
  simpl in *. split; [by rewrite Hlen |].
  constructor; [| done].
  pose proof (element_spec i j n) as H. by rewrite He in H.
Qed.

Lemma cell_spec i n : cell_ok (cell random i n).1.
Proof.
  unfold cell_ok, cell, mbind, Rand_bind, mret, Rand_ret, Math_random.
  destruct (Qlt_le_dec (8 # 10) (random n)); [| split; simpl; [lia | done]].
  destruct (elements_from_spec i (Z.to_nat (Qfloor (random (S n) * 2) + 1)) 0%nat (S (S n)))
    as [Hlen Hok].
  destruct (elements_from random i 0 (Z.to_nat (Qfloor (random (S n) * 2) + 1)) (S (S n)))
    as [es n'].
  cbn [fst elements] in *.
  split; [| exact Hok].
  rewrite Hlen. destruct (in_range (S n)) as [H0 H1].
  destruct (floor_bounds (random (S n)) 2 H0 H1) as [Hlo Hhi]; [lia |].
  change (inject_Z 2) with 2%Q in *. lia.
Qed.

Lemma cells_from_spec length : forall i n,
  List.length (cells_from random i length n).1 = length /\
  Forall cell_ok (cells_from random i length n).1.
Proof.
  induction length as [| length IH]; intros i n; [by split |].
  simpl. unfold mbind, Rand_bind, mret, Rand_ret.
  destruct (cell random i n) as [c n1] eqn:Hc.
  destruct (cells_from random (S i) length n1) as [cs n2] eqn:Hcs.
  simpl. destruct (IH (S i) n1) as [Hlen Hall]. rewrite Hcs in Hlen, Hall.
  simpl in *. split; [by rewrite Hlen |].
  constructor; [| done].
  pose proof (cell_spec i n) as H. by rewrite Hc in H.
Qed.

End Grid.

(** C10: whatever [Math.random] returns within its range [0, 1), the grid
    has 300 cells, each cell holds at most 2 elements, and [rotating] is
    false in every element, the type of an element being drawn from 'dot',
    'circle', 'square' and none of these being eligible for rotation. *)
Theorem pulse_grid_shape (random : nat -> Q) :
  (forall k, (0 <= random k)%Q /\ (random k < 1)%Q) ->
  length (PulseBackground.newElements random) = 300%nat /\
  Forall (fun c =>
            (length (PulseBackground.elements c) <= 2)%nat /\
            Forall (fun e => PulseBackground.rotating e = false /\
                             PulseBackground.type e ∈
                               (Some <$> PulseBackground.shapeTypes))
                   (PulseBackground.elements c))
         (PulseBackground.newElements random) /\
  (forall k,
     PulseBackground.includes ["diamond"; "cross"; "star"]
       (PulseBackground.at_index PulseBackground.shapeTypes k) = false).
Proof.
  intros Hr. unfold PulseBackground.newElements.
  destruct (cells_from_spec random Hr 300 0%nat 0%nat) as [Hlen Hall].
  split; [exact Hlen | split; [exact Hall | apply shape_never_rotates]].
Qed.

Lemma pulse_grid_shape_witness :
  length (PulseBackground.newElements (fun _ => (9 # 10)%Q)) = 300%nat.
Proof.
  apply (pulse_grid_shape (fun _ => (9 # 10)%Q)).
  intros k. split; [discriminate | reflexivity].
Defined.

(** ** Relocation and the session state *)




(** C5: when the body of [POST /api/location] has a status other than
    'success', [setLocation] makes one call, [setError], with the [error] of
    the body (or 'Failed to set location' when the body has none): the
    message is in the error banner of the form and of the dashboard, and the
    hospitals, the predictions, the user location, the [locationSet] flag
    and the [loading] flag are what they were.  The submit handler of the
    form shows the same message in a dialog and does not call back into
    [App]. *)
Theorem failed_relocation_keeps_session
    (s : App.State) (data : Api.LocationData) (res' : fetched Api.PredictionsData) :
  Api.status data <> Some "success" ->
  let message := Js.string_or (Api.error data) "Failed to set location" in
  let s' := App.final s (App.setLocation (Body data) res') in
  App.setLocation (Body data) res' = [[App.setError (Some message)]] /\
  App.settled s (App.setLocation (Body data) res') = [s'] /\
  message <> EmptyString /\
  (forall m, Api.error data = Some m -> m <> EmptyString -> message = m) /\
  App.error s' = Some message /\
  (App.rendered s' <> App.LoadingScreen -> App.errorBanner s' = Some message) /\
  App.hospitals s' = App.hospitals s /\
  App.predictions s' = App.predictions s /\
  App.userLocation s' = App.userLocation s /\
  App.locationSet s' = App.locationSet s /\
  App.loading s' = App.loading s /\
  App.rendered s' = App.rendered s /\
  (forall location, location <> EmptyString ->
     LocationInput.handleSubmit location (Body data) =
       [LocationInput.setIsLoading true; LocationInput.alert message;
        LocationInput.setIsLoading false]).
Proof.
  intros Hfail message s'.
  assert (Hruns : App.setLocation (Body data) res' = [[App.setError (Some message)]]).
  { unfold App.setLocation. by rewrite bool_decide_eq_false_2. }
  assert (Hmsg : message <> EmptyString).
  { unfold message, Js.string_or. destruct (Api.error data) as [m |]; [| done].
    case_bool_decide; done. }
  subst s'. rewrite Hruns.
  split; [done | split; [done | split; [done | split; [| split; [done | split]]]]].
  - intros m Hm Hne. unfold message, Js.string_or. rewrite Hm.
    by rewrite bool_decide_eq_false_2.
  - unfold App.errorBanner, App.rendered. simpl.
    destruct (negb (App.locationSet s)); [| destruct (App.loading s)];
      try done; intros _; by rewrite bool_decide_eq_false_2.
  - split_and!; try done.
    intros location Hl. unfold LocationInput.handleSubmit.
    by rewrite !bool_decide_eq_false_2.
Qed.

Lemma failed_relocation_keeps_session_witness :
  let s' := App.final Scenario.before
              (App.setLocation (Body Scenario.not_found) Threw) in
  App.error s' = Some "Location not found" /\
  App.errorBanner s' = Some "Location not found" /\
  App.hospitals s' = App.hospitals Scenario.before /\
  App.predictions s' = App.predictions Scenario.before.
Proof.
  destruct (failed_relocation_keeps_session Scenario.before Scenario.not_found Threw)
    as (_ & _ & _ & _ & He & Hb & Hh & Hp & _); [discriminate |].
  split; [exact He | split; [| split; [exact Hh | exact Hp]]].
  apply Hb. discriminate.
Defined.

(** ** The street-cam note *)




(** ** The prediction engine *)



(** * Further properties of the components *)

Local Set Warnings "-clear-no-such-hyp".

(** ** Sums and averages of wait times *)

Lemma is_zero_of_pos (n : nat) : (0 < n)%nat -> is_zero (inject_Z (Z.of_nat n)) = false.
Proof.
  intros Hn. unfold is_zero. destruct (Qeq_bool _ _) eqn:E; [| done].
  apply Qeq_bool_iff in E. unfold Qeq in E. simpl in E. lia.
Qed.

Lemma div_Fin_pos (s : Q) (n : nat) :
  (0 < n)%nat -> div (Fin s) (of_nat n) = Fin (s / inject_Z (Z.of_nat n)).
Proof. intros Hn. unfold div, of_nat, of_Z. by rewrite is_zero_of_pos. Qed.

Lemma sum_within (lo hi : Q) (xs : list number) :
  Forall (fun v => exists q, v = Fin q /\ (lo <= q)%Q /\ (q <= hi)%Q) xs ->
  forall a0 : Q, exists s,
    foldl (fun a b => add a b) (Fin a0) xs = Fin s /\
    (a0 + lo * inject_Z (Z.of_nat (length xs)) <= s)%Q /\
    (s <= a0 + hi * inject_Z (Z.of_nat (length xs)))%Q.
Proof.
  induction 1 as [| v xs (q & -> & Hlo & Hhi) _ IH]; intros a0.
  - exists a0. split; [done |].
    change (inject_Z (Z.of_nat (length []))) with 0%Q. split; lra.
  - destruct (IH (a0 + q)%Q) as (s & Hs & Hl & Hh).
    exists s. split; [exact Hs |].
    rewrite length_cons, Nat2Z.inj_succ, <- Z.add_1_r, inject_Z_plus.
    change (inject_Z 1) with 1%Q. split; lra.
Qed.

Lemma mean_within (lo hi s : Q) (n : nat) :
  (0 < n)%nat ->
  (lo * inject_Z (Z.of_nat n) <= s)%Q -> (s <= hi * inject_Z (Z.of_nat n))%Q ->
  (lo <= s / inject_Z (Z.of_nat n))%Q /\ (s / inject_Z (Z.of_nat n) <= hi)%Q.
Proof.
  intros Hn Hl Hh.
  assert (Hpos : (0 < inject_Z (Z.of_nat n))%Q).
  { change 0%Q with (inject_Z 0). rewrite <- Zlt_Qlt. lia. }
  split; [by apply Qle_shift_div_l | by apply Qle_shift_div_r].
Qed.

Lemma floor_half (z : Z) : Qfloor (inject_Z z + (1 # 2)) = z.
Proof.
  apply Z.le_antisymm.
  - apply Z.lt_succ_r. rewrite Zlt_Qlt.
    eapply Qle_lt_trans; [apply Qfloor_le |].
    unfold Z.succ. rewrite inject_Z_plus. change (inject_Z 1) with 1%Q. lra.
  - rewrite <- (Qfloor_Z z) at 1. apply Qfloor_resp_le. lra.
Qed.

Lemma round_within (lo hi : Z) (x : Q) :
  (inject_Z lo <= x)%Q -> (x <= inject_Z hi)%Q ->
  (lo <= Qfloor (x + (1 # 2)) <= hi)%Z.
Proof.
  intros Hl Hh. split.
  - rewrite <- (floor_half lo). apply Qfloor_resp_le. lra.
  - rewrite <- (floor_half hi). apply Qfloor_resp_le. lra.
Qed.

Lemma round_near (x : Q) :
  (inject_Z (Qfloor (x + (1 # 2))) <= x + (1 # 2))%Q /\
  (x - (1 # 2) < inject_Z (Qfloor (x + (1 # 2))))%Q.
Proof.
  split; [apply Qfloor_le |].
  pose proof (Qlt_floor (x + (1 # 2))) as H.
  rewrite inject_Z_plus in H. change (inject_Z 1) with 1%Q in H. lra.
Qed.

Lemma effective_wait_within (lo hi q : Q) :
  (lo <= q)%Q -> (q <= hi)%Q ->
  exists q', field_or (Some (Fin q)) 0%Z = Fin q' /\ (lo <= q')%Q /\ (q' <= hi)%Q.
Proof.
  intros Hl Hh. simpl. unfold or_else. simpl. unfold is_zero.
  destruct (Qeq_bool q 0) eqn:E; simpl.
  - apply Qeq_bool_iff in E. exists (inject_Z 0). split; [done |].
    change (inject_Z 0) with 0%Q. rewrite <- E. by split.
  - by exists q.
Qed.

Lemma values_length (o : gmap string Prediction) :
  length (RealTimeUpdates.values o) = size o.
Proof.
  unfold RealTimeUpdates.values. by rewrite length_fmap, length_map_to_list.
Qed.

Lemma waits_within (predictions : gmap string Prediction) (lo hi : Q) :
  (forall i p, predictions !! i = Some p ->
     exists q, current_wait_time p = Some (Fin q) /\ (lo <= q)%Q /\ (q <= hi)%Q) ->
  Forall (fun v => exists q, v = Fin q /\ (lo <= q)%Q /\ (q <= hi)%Q)
    ((fun p => field_or (current_wait_time p) 0%Z) <$> RealTimeUpdates.values predictions).
Proof.
  intros H. apply Forall_fmap, Forall_forall. intros p Hp.
  unfold RealTimeUpdates.values in Hp.
  apply list_elem_of_fmap in Hp as ([i p'] & -> & Hip).
  apply elem_of_map_to_list in Hip.
  destruct (H i p' Hip) as (q & Hq & Hl & Hh). simpl. rewrite Hq.
  by apply effective_wait_within.
Qed.

(** X1: when the predictions map is not empty and every wait time in it is a
    finite number between two integer bounds, [getAverageWaitTime] returns
    an integer between the same bounds. *)
Theorem average_wait_within_bounds (predictions : gmap string Prediction) (lo hi : Z) :
  (forall i p, predictions !! i = Some p ->
     exists q, current_wait_time p = Some (Fin q) /\
               (inject_Z lo <= q)%Q /\ (q <= inject_Z hi)%Q) ->
  predictions <> ∅ ->
  exists z, RealTimeUpdates.getAverageWaitTime predictions = Fin (inject_Z z) /\
            (lo <= z <= hi)%Z.
Proof.
  intros Hall Hne. unfold RealTimeUpdates.getAverageWaitTime.
  set (xs := (fun p => field_or (current_wait_time p) 0%Z)
               <$> RealTimeUpdates.values predictions).
  assert (Hlen : length xs = size predictions)
    by (unfold xs; by rewrite length_fmap, values_length).
  assert (Hpos : (0 < length xs)%nat).
  { rewrite Hlen. destruct (size predictions) eqn:E; [| lia].
    by apply map_size_empty_iff in E. }
  destruct (0 <? length xs)%nat eqn:E; [| apply Nat.ltb_ge in E; lia].
  destruct (sum_within _ _ xs (waits_within _ _ _ Hall) 0%Q) as (s & Hs & Hl & Hh).
  change (of_Z 0) with (Fin 0). rewrite Hs, div_Fin_pos by done.
  destruct (mean_within (inject_Z lo) (inject_Z hi) s (length xs) Hpos)
    as [Hl' Hh']; [lra | lra |].
  eexists. split; [reflexivity |]. by apply round_within.
Qed.

Lemma average_wait_within_bounds_witness :
  exists z,
    RealTimeUpdates.getAverageWaitTime {[ "er-1" := Scenario.prediction 45 ]}
      = Fin (inject_Z z) /\ (40 <= z <= 50)%Z.
Proof.
  apply (average_wait_within_bounds {[ "er-1" := Scenario.prediction 45 ]} 40 50).
  - intros i p [<- <-]%lookup_singleton_Some.
    exists 45%Q. split; [reflexivity | split; discriminate].
  - apply map_non_empty_singleton.
Defined.

Lemma average_of_nothing : RealTimeUpdates.getAverageWaitTime ∅ = Fin 0.
Proof. reflexivity. Qed.

(** X2: [getSystemStatus] reports 'Good' for an empty predictions map and,
    for wait times that are finite numbers between two integer bounds,
    'Good' when the upper bound is below 30, 'Moderate' when the bounds lie
    from 30 to below 60, and 'High Load' when the lower bound is 60 or
    more, each with its colour. *)
Theorem system_status_by_bounds (predictions : gmap string Prediction) (lo hi : Z) :
  (forall i p, predictions !! i = Some p ->
     exists q, current_wait_time p = Some (Fin q) /\
               (inject_Z lo <= q)%Q /\ (q <= inject_Z hi)%Q) ->
  (predictions = ∅ ->
     RealTimeUpdates.getSystemStatus predictions = ("Good", "#10b981")) /\
  (predictions <> ∅ -> (hi < 30)%Z ->
     RealTimeUpdates.getSystemStatus predictions = ("Good", "#10b981")) /\
  (predictions <> ∅ -> (30 <= lo)%Z -> (hi < 60)%Z ->
     RealTimeUpdates.getSystemStatus predictions = ("Moderate", "#f59e0b")) /\
  (predictions <> ∅ -> (60 <= lo)%Z ->
     RealTimeUpdates.getSystemStatus predictions = ("High Load", "#dc2626")).
Proof.
  intros Hall. split; [by intros -> |].
  assert (Hcmp : forall z b : Z, lt (Fin (inject_Z z)) (of_Z b) = bool_decide (z < b)%Z).
  { intros z b. unfold of_Z. case_bool_decide as Hzb.
    - apply lt_Fin. by rewrite <- Zlt_Qlt.
    - apply lt_Fin_false. rewrite <- Zle_Qle. lia. }
  split_and!; intros Hne; intros;
    destruct (average_wait_within_bounds predictions lo hi Hall Hne) as (z & Hz & Hzl & Hzh);
    unfold RealTimeUpdates.getSystemStatus; rewrite Hz, !Hcmp;
    repeat case_bool_decide; try lia; reflexivity.
Qed.

Lemma system_status_by_bounds_witness :
  RealTimeUpdates.getSystemStatus {[ "er-1" := Scenario.prediction 20 ]}
    = ("Good", "#10b981") /\
  RealTimeUpdates.getSystemStatus {[ "er-1" := Scenario.prediction 75 ]}
    = ("High Load", "#dc2626").
Proof.
  split.
  - destruct (system_status_by_bounds {[ "er-1" := Scenario.prediction 20 ]} 20 20)
      as (_ & Hgood & _).
    + intros i p [<- <-]%lookup_singleton_Some.
      exists 20%Q. split; [reflexivity | split; discriminate].
    + apply Hgood; [apply map_non_empty_singleton | lia].
  - destruct (system_status_by_bounds {[ "er-1" := Scenario.prediction 75 ]} 75 75)
      as (_ & _ & _ & Hhigh).
    + intros i p [<- <-]%lookup_singleton_Some.
      exists 75%Q. split; [reflexivity | split; discriminate].
    + apply Hhigh; [apply map_non_empty_singleton | lia].
Defined.

Lemma sum_by_reduce (o : gmap string Prediction) :
  foldl (fun sum p => add sum (field_or (current_wait_time p) 0%Z))
        (0%Z : number) (RealTimeUpdates.values o)
  = foldl (fun a b => add a b) (0%Z : number)
          ((fun p => field_or (current_wait_time p) 0%Z) <$> RealTimeUpdates.values o).
Proof. by rewrite foldl_fmap. Qed.

Lemma steady (v : number) (n : nat) :
  (0 < n)%nat ->
  gt (round (div v (of_nat n))) (add (div v (of_nat n)) 5%Z) = false /\
  lt (round (div v (of_nat n))) (sub (div v (of_nat n)) 5%Z) = false.
Proof.
  intros Hn. destruct v as [s | | |].
  - rewrite div_Fin_pos by done. set (x := (s / inject_Z (Z.of_nat n))%Q).
    destruct (round_near x) as [Hup Hdown]. unfold gt, round, of_Z. simpl add. simpl sub.
    split; apply lt_Fin_false; change (inject_Z 5) with 5%Q; lra.
  - unfold div, of_nat, of_Z, is_neg.
    destruct (Qlt_le_dec (inject_Z (Z.of_nat n)) 0) as [H | H]; [| done].
    exfalso. change 0%Q with (inject_Z 0) in H. rewrite <- Zlt_Qlt in H. lia.
  - unfold div, of_nat, of_Z, is_neg.
    destruct (Qlt_le_dec (inject_Z (Z.of_nat n)) 0) as [H | H]; [| done].
    exfalso. change 0%Q with (inject_Z 0) in H. rewrite <- Zlt_Qlt in H. lia.
  - done.
Qed.

(** X3: when the predictions on display are those of the history entry at
    index 1, [getTrendDirection] returns 'stable', whatever the wait times
    are: rounding the current average moves it by at most a half, far from
    the margin of 5. *)
Theorem trend_stable_when_unchanged
    (updateHistory : list RealTimeUpdates.Update)
    (predictions : gmap string Prediction) (u : RealTimeUpdates.Update) :
  updateHistory !! 1%nat = Some u ->
  RealTimeUpdates.predictions u = predictions ->
  RealTimeUpdates.getTrendDirection updateHistory predictions = "stable".
Proof.
  intros Hu <-. unfold RealTimeUpdates.getTrendDirection.
  destruct (length updateHistory <? 2)%nat; [done |].
  unfold RealTimeUpdates.previousAverage, RealTimeUpdates.getAverageWaitTime.
  rewrite Hu, sum_by_reduce.
  unfold RealTimeUpdates.previousDivisor, RealTimeUpdates.keys_length.
  rewrite length_fmap, values_length.
  destruct (size (RealTimeUpdates.predictions u)) as [| n] eqn:Hsize.
  - apply map_size_empty_iff in Hsize. rewrite Hsize. reflexivity.
  -     destruct (steady (foldl (fun a b => add a b) (0%Z : number)
                        ((fun p => field_or (current_wait_time p) 0%Z)
                           <$> RealTimeUpdates.values (RealTimeUpdates.predictions u)))
                     (S n)) as [Hg Hl]; [lia |].
    change (0 <? S n)%nat with true. cbv iota. by rewrite Hg, Hl.
Qed.

Lemma trend_stable_when_unchanged_witness :
  RealTimeUpdates.getTrendDirection
    (RealTimeUpdates.history
       [(1%Z, {[ "er-1" := Scenario.prediction 45 ]});
        (2%Z, {[ "er-1" := Scenario.prediction 45 ]})])
    {[ "er-1" := Scenario.prediction 45 ]}
  = "stable".
Proof.
  apply (trend_stable_when_unchanged _ _
           {| RealTimeUpdates.timestamp := 1;
              RealTimeUpdates.predictions := {[ "er-1" := Scenario.prediction 45 ]};
              RealTimeUpdates.type := "prediction_update" |});
    reflexivity.
Defined.

(** X4: the "Recent Updates" list of the status panel shows the "No updates
    yet" box exactly as long as every change so far had an empty
    predictions map; otherwise it has between 1 and 5 rows, one for each of
    the most recent recorded changes, the newest first, and every row reads
    'Predictions updated', never 'System update'. *)
Theorem recent_updates_rows (changes : list (Z * gmap string Prediction)) :
  (StatusPanel.recentUpdates (RealTimeUpdates.history changes) = None <->
     Forall (fun c => c.2 = ∅) changes) /\
  (forall rows,
     StatusPanel.recentUpdates (RealTimeUpdates.history changes) = Some rows ->
     (0 < length rows <= 5)%nat /\
     rows = (fun u => ("Predictions updated", RealTimeUpdates.timestamp u))
              <$> take 5 (reverse (omap RealTimeUpdates.entry_of changes))).
Proof.
  rewrite history_window. unfold RealTimeUpdates.newest_first_window.
  set (recorded := omap RealTimeUpdates.entry_of changes).
  assert (Htype : Forall (fun u => RealTimeUpdates.type u = "prediction_update") recorded).
  { apply Forall_forall. intros u Hu.
    apply list_elem_of_omap in Hu as (c & _ & Hc).
    unfold RealTimeUpdates.entry_of in Hc. case_match; [| done].
    by injection Hc as <-. }
  assert (Hnil : recorded = [] <-> Forall (fun c => c.2 = ∅) changes).
  { unfold recorded. clear Htype. induction changes as [| c changes IH]; [done |].
    simpl. unfold RealTimeUpdates.entry_of at 1, RealTimeUpdates.keys_length.
    destruct (0 <? size c.2)%nat eqn:E.
    - split; [done |]. intros Hall. apply Forall_cons_1 in Hall as [Hc _].
      rewrite Hc, map_size_empty in E. done.
    - apply Nat.ltb_ge in E. rewrite IH. split.
      + intros Hall. constructor; [| done]. apply map_size_empty_iff. lia.
      + intros Hall. by apply Forall_cons_1 in Hall as [_ Hall]. }
  unfold StatusPanel.recentUpdates. split.
  - rewrite <- Hnil. destruct (reverse recorded) as [| u l] eqn:Hr.
    + apply (f_equal reverse) in Hr. rewrite reverse_involutive in Hr. by rewrite Hr.
    + simpl. split; [done |]. intros ->. done.
  - intros rows. case_match eqn:Hlen; [| done]. intros [= <-].
    apply Nat.ltb_lt in Hlen. rewrite take_take. simpl Nat.min.
    split.
    + rewrite length_fmap, length_take. rewrite length_take in Hlen. lia.
    + apply Forall_fmap_ext_1. apply Forall_take, Forall_reverse.
      eapply Forall_impl; [exact Htype |]. intros u Hu. simpl. by rewrite decide_True.
Qed.

Lemma recent_updates_rows_witness :
  (0 < length [("Predictions updated", 3%Z); ("Predictions updated", 1%Z)] <= 5)%nat.
Proof.
  destruct (recent_updates_rows Samples.three_changes) as [_ H].
  apply (H [("Predictions updated", 3%Z); ("Predictions updated", 1%Z)]).
  reflexivity.
Defined.

(** ** Timestamps of the history *)

Lemma entry_of_fields c u :
  RealTimeUpdates.entry_of c = Some u ->
  RealTimeUpdates.timestamp u = c.1 /\ RealTimeUpdates.predictions u = c.2.
Proof.
  unfold RealTimeUpdates.entry_of. destruct (0 <? _)%nat; [| done].
  by intros [= <-].
Qed.

Lemma recorded_timestamps (changes : list (Z * gmap string Prediction)) :
  StronglySorted Z.le (fst <$> changes) ->
  StronglySorted Z.le
    (RealTimeUpdates.timestamp <$> omap RealTimeUpdates.entry_of changes).
Proof.
  induction changes as [| c changes IH]; simpl; [constructor |].
  intros [Hall Hs]%StronglySorted_cons.
  destruct (RealTimeUpdates.entry_of c) as [u |] eqn:Hu; [| by apply IH].
  simpl. apply StronglySorted_cons. split; [| by apply IH].
  apply entry_of_fields in Hu as [-> _].
  apply Forall_fmap, Forall_forall. intros v Hv. simpl.
  apply list_elem_of_omap in Hv as (c' & Hc' & Hv).
  apply entry_of_fields in Hv as [-> _].
  rewrite Forall_forall in Hall. apply Hall. by apply list_elem_of_fmap_2.
Qed.

Lemma StronglySorted_reverse_le (l : list Z) :
  StronglySorted Z.le l -> StronglySorted (fun t t' => (t' <= t)%Z) (reverse l).
Proof.
  induction l as [| x l IH]; [constructor |].
  intros [Hall Hs]%StronglySorted_cons. rewrite reverse_cons.
  apply StronglySorted_app_2; [| by apply IH | repeat constructor].
  intros x1 x2 H1 H2. rewrite elem_of_reverse in H1.
  apply list_elem_of_singleton in H2. subst x2.
  rewrite Forall_forall in Hall. cbv beta. by apply Hall.
Qed.

(** X5: when the clock does not go backwards between the changes of the
    predictions, the timestamps of the update history never increase from
    one entry to the next, and every entry is the time and the predictions
    map of one of the changes. *)
Theorem history_newest_first (changes : list (Z * gmap string Prediction)) :
  StronglySorted Z.le (fst <$> changes) ->
  StronglySorted (fun t t' => (t' <= t)%Z)
    (RealTimeUpdates.timestamp <$> RealTimeUpdates.history changes) /\
  Forall (fun u => (RealTimeUpdates.timestamp u, RealTimeUpdates.predictions u) ∈ changes)
    (RealTimeUpdates.history changes).
Proof.
  intros Hs. rewrite history_window. unfold RealTimeUpdates.newest_first_window. split.
  - rewrite fmap_take, fmap_reverse.
    eapply StronglySorted_app_1_l. rewrite take_drop.
    by apply StronglySorted_reverse_le, recorded_timestamps.
  - apply Forall_take, Forall_reverse, Forall_forall. intros u Hu.
    apply list_elem_of_omap in Hu as (c & Hc & Hu).
    apply entry_of_fields in Hu as [-> ->]. by destruct c.
Qed.

Lemma history_newest_first_witness :
  StronglySorted (fun t t' => (t' <= t)%Z)
    (RealTimeUpdates.timestamp <$> RealTimeUpdates.history Samples.three_changes).
Proof.
  apply (history_newest_first Samples.three_changes).
  simpl. repeat constructor; lia.
Defined.

(** ** What the calls of [App] never do *)

Section Calls.

Import App AppCalls.








End Calls.






(** ** The two views of the dashboard *)

(** X8: [HospitalMap] renders unless there is a hospital and the predictions
    are undefined, showing its placeholder for an undefined or empty
    hospitals list; [PredictionCards], and with it the dashboard, renders
    only when the hospitals list is defined, and empty or accompanied by a
    predictions map.  A dashboard that renders shows one marker and one card
    for each hospital. *)
Theorem dashboard_renders_iff (s : App.State) :
  (is_Some (Views.HospitalMap (App.hospitals s) (App.predictions s) None) <->
     App.hospitals s = None \/ App.hospitals s = Some [] \/
     is_Some (App.predictions s)) /\
  (is_Some (Views.PredictionCards (App.hospitals s) (App.predictions s) false) <->
     App.hospitals s = Some [] \/
     (is_Some (App.hospitals s) /\ is_Some (App.predictions s))) /\
  (is_Some (Views.dashboard s) <->
     App.hospitals s = Some [] \/
     (is_Some (App.hospitals s) /\ is_Some (App.predictions s))) /\
  (forall m c, Views.dashboard s = Some (m, c) ->
     exists hs, App.hospitals s = Some hs /\
       match m, c with
       | Views.NoHospitals, Views.Cards cards => hs = [] /\ cards = []
       | Views.Map _ _ markers, Views.Cards cards =>
           length markers = length hs /\ length cards = length hs
       | _, Views.LoadingCard => False
       end).
Proof.
  unfold Views.dashboard, Views.HospitalMap, Views.PredictionCards.
  destruct (App.hospitals s) as [[| h hs] |], (App.predictions s) as [p |];
    simpl; split_and!;
    try (split; [intros H | intros H]);
    try (intros m c [= <- <-]);
    try (by eauto);
    try (by destruct H as [H | [H | H]]; [| | destruct H]);
    try (by destruct H as [H | [H1 H2]]; [| destruct H1 || destruct H2]);
    try (by destruct H).
  all: try (eexists; split; [done |]; simpl; by rewrite ?length_fmap).
Qed.

Lemma dashboard_renders_iff_witness : is_Some (Views.dashboard Scenario.before).
Proof.
  destruct (dashboard_renders_iff Scenario.before) as (_ & _ & H & _).
  apply H. right. split; eexists; reflexivity.
Defined.

(** ** The location form *)

(** X9: whatever the outcome of the request, the submit handler and the
    current-location handler of the form leave [isLoading] false, show
    exactly one dialog or hand exactly one answer to [App] (nothing at all
    for an empty location text), and hand an answer over exactly when the
    body has status 'success'. *)
Theorem form_ends_idle :
  (forall location res,
     let e := LocationInput.handleSubmit location res in
     CurrentLocation.isLoading_after false e = false /\
     (location = EmptyString -> e = []) /\
     (location <> EmptyString ->
        (length (CurrentLocation.alerts e)
         + length (CurrentLocation.handed_over e) = 1)%nat /\
        CurrentLocation.isLoading_after true e = false) /\
     (forall d, d ∈ CurrentLocation.handed_over e <->
                location <> EmptyString /\ res = Body d /\
                Api.status d = Some "success")) /\
  (forall geo res,
     let e := CurrentLocation.handleGetCurrentLocation geo res in
     CurrentLocation.isLoading_after false e = false /\
     (length (CurrentLocation.alerts e)
      + length (CurrentLocation.handed_over e) = 1)%nat /\
     (forall d, d ∈ CurrentLocation.handed_over e <->
                (exists latitude longitude, geo = CurrentLocation.Position latitude longitude) /\
                res = Body d /\ Api.status d = Some "success")).
Proof.
  split.
  - intros location res e. subst e. unfold LocationInput.handleSubmit.
    case_bool_decide as Hl;
      [| destruct res as [| data]; [| case_bool_decide as Hs]];
      cbn; (split_and!; try done); intros d; set_unfold; naive_solver.
  - intros geo res e. subst e. unfold CurrentLocation.handleGetCurrentLocation.
    destruct geo as [| | latitude longitude];
      [| | destruct res as [| data]; [| case_bool_decide as Hs]];
      cbn; (split_and!; try done); intros d; set_unfold; naive_solver.
Qed.

Lemma form_ends_idle_witness :
  CurrentLocation.isLoading_after false
    (LocationInput.handleSubmit "Boston" Threw) = false /\
  CurrentLocation.isLoading_after true
    (LocationInput.handleSubmit "Boston" Threw) = false.
Proof.
  destruct form_ends_idle as [H _].
  destruct (H "Boston" Threw) as (Hidle & _ & Hbusy & _).
  split; [exact Hidle |]. apply Hbusy. discriminate.
Defined.

(** X10: a successful answer that carries hospitals and predictions, handed
    over by either handler of the form, takes [App] from any state to the
    dashboard, which renders one marker and one card for each hospital of
    the answer; the earlier error message stays what it was. *)
Theorem successful_submit_reaches_dashboard
    (s : App.State) (location : string) (data : Api.LocationData)
    (res' : fetched Api.PredictionsData)
    (hs : list Hospital) (p : gmap string Prediction) :
  location <> EmptyString ->
  Api.status data = Some "success" ->
  Api.hospitals data = Some hs ->
  Api.predictions data = Some p ->
  let e := LocationInput.handleSubmit location (Body data) in
  let s' := App.final s (CurrentLocation.app_runs_of e res') in
  CurrentLocation.app_runs_of e res' = App.handleLocationSet data res' /\
  CurrentLocation.app_runs_of
    (CurrentLocation.handleGetCurrentLocation
       (CurrentLocation.Position 0%Z 0%Z) (Body data)) res'
    = App.handleLocationSet data res' /\
  App.rendered s' = App.Dashboard /\
  App.error s' = App.error s /\
  Views.dashboard s' =
    Some (match hs with
          | [] => Views.NoHospitals
          | _ => Views.Map (Views.center hs None) None (HospitalMap.marker p <$> hs)
          end,
          Views.Cards (PredictionCards.card p <$> hs)).
Proof.
  intros Hl Hs Hh Hp e s'. subst e s'.
  unfold LocationInput.handleSubmit, CurrentLocation.handleGetCurrentLocation,
    CurrentLocation.app_runs_of.
  rewrite bool_decide_eq_false_2, bool_decide_eq_true_2 by done.
  simpl. rewrite app_nil_r.
  unfold App.handleLocationSet. rewrite Hp, Hh. simpl.
  split_and!; try done.
  unfold Views.dashboard. simpl. by destruct hs.
Qed.

Lemma successful_submit_reaches_dashboard_witness :
  App.rendered
    (App.final App.initial
       (CurrentLocation.app_runs_of
          (LocationInput.handleSubmit "Boston"
             (Body Scenario.relocated_with_predictions)) Threw))
  = App.Dashboard.
Proof.
  apply (successful_submit_reaches_dashboard App.initial "Boston"
           Scenario.relocated_with_predictions Threw
           [Scenario.hospital "er-2"] {[ "er-2" := Scenario.prediction 20 ]});
    try reflexivity.
  discriminate.
Defined.

(** ** The centre of the map *)





(** ** Cards and markers *)




(** ** Letter case *)

Lemma lower_idempotent (c : ascii) : CardIcons.lower (CardIcons.lower c) = CardIcons.lower c.
Proof. destruct c as [[] [] [] [] [] [] [] []]; reflexivity. Qed.

Lemma toLowerCase_idempotent (s : string) :
  CardIcons.toLowerCase (CardIcons.toLowerCase s) = CardIcons.toLowerCase s.
Proof.
  induction s as [| c s IH]; [done |]. simpl. by rewrite lower_idempotent, IH.
Qed.

(** X13: [getRecommendationClass] and [getRecommendationIcon] ignore the
    letter case of their argument; the class is one of 'go-now', 'wait' and
    'alternatives', 'wait' for a missing or unknown recommendation, and it
    is 'go-now' or 'alternatives' exactly for 'go now' and 'consider
    alternatives' in any letter case. *)
Theorem recommendation_ignores_case (text : string) :
  CardIcons.getRecommendationClass (Some (CardIcons.toLowerCase text))
    = CardIcons.getRecommendationClass (Some text) /\
  CardIcons.getRecommendationIcon (Some (CardIcons.toLowerCase text))
    = CardIcons.getRecommendationIcon (Some text) /\
  CardIcons.getRecommendationClass (Some text) ∈ ["go-now"; "wait"; "alternatives"] /\
  CardIcons.getRecommendationClass None = "wait" /\
  (CardIcons.getRecommendationClass (Some text) = "go-now" <->
     CardIcons.toLowerCase text = "go now") /\
  (CardIcons.getRecommendationClass (Some text) = "alternatives" <->
     CardIcons.toLowerCase text = "consider alternatives").
Proof.
  unfold CardIcons.getRecommendationClass, CardIcons.getRecommendationIcon.
  simpl. rewrite toLowerCase_idempotent.
  split_and!; try done.
  - repeat case_decide; set_solver.
  - repeat case_decide; split; intros Heq; congruence.
  - repeat case_decide; split; intros Heq; congruence.
Qed.

Lemma recommendation_ignores_case_witness :
  CardIcons.getRecommendationClass (Some "GO NOW") = "go-now" /\
  CardIcons.getRecommendationClass (Some "Consider Alternatives") = "alternatives".
Proof.
  split.
  - destruct (recommendation_ignores_case "GO NOW") as (_ & _ & _ & _ & H & _).
    apply H. reflexivity.
  - destruct (recommendation_ignores_case "Consider Alternatives")
      as (_ & _ & _ & _ & _ & H).
    apply H. reflexivity.
Defined.

(** ** Positions and keys in the pulse grid *)

Section GridElements.

Import PulseBackground.

Variable random : nat -> Q.

Variable P : nat -> nat -> Element -> Prop.

Hypothesis element_P : forall i j n, P i j (element random i j n).1.

Lemma elements_from_each i todo : forall j n k e,
  (elements_from random i j todo n).1 !! k = Some e -> P i (j + k) e.
Proof.
  induction todo as [| todo IH]; intros j n k e; [done |].
  simpl. unfold mbind, Rand_bind, mret, Rand_ret.
  pose proof (element_P i j n) as He.
  destruct (element random i j n) as [e0 n1].
  specialize (IH (S j) n1).
  destruct (elements_from random i (S j) todo n1) as [es n2].
  cbn [fst] in *. destruct k as [| k]; simpl.
  - intros [= <-]. by rewrite Nat.add_0_r.
  - intros Hk. replace (j + S k)%nat with (S j + k)%nat by lia. by eapply IH.
Qed.

Lemma cell_each i n k e :
  elements (cell random i n).1 !! k = Some e -> P i k e.
Proof.
  unfold cell, mbind, Rand_bind, mret, Rand_ret, Math_random.
  destruct (Qlt_le_dec (8 # 10) (random n)); [| done].
  pose proof (elements_from_each i (Z.to_nat (Qfloor (random (S n) * 2) + 1))
                0%nat (S (S n)) k e) as H.
  destruct (elements_from random i 0 (Z.to_nat (Qfloor (random (S n) * 2) + 1)) (S (S n)))
    as [es n'].
  exact H.
Qed.

Lemma cells_from_each length : forall i n m c,
  (cells_from random i length n).1 !! m = Some c ->
  cellId c = (i + m)%nat /\
  forall k e, elements c !! k = Some e -> P (i + m) k e.
Proof.
  induction length as [| length IH]; intros i n m c; [done |].
  simpl. unfold mbind, Rand_bind, mret, Rand_ret.
  pose proof (cell_each i n) as Hc.
  assert (Hid : cellId (cell random i n).1 = i).
  { unfold cell, mbind, Rand_bind, mret, Rand_ret, Math_random.
    destruct (Qlt_le_dec (8 # 10) (random n)); [| done].
    by destruct (elements_from random i 0 _ (S (S n))). }
  destruct (cell random i n) as [c0 n1].
  specialize (IH (S i) n1).
  destruct (cells_from random (S i) length n1) as [cs n2].
  cbn [fst] in *. destruct m as [| m]; simpl.
  - intros [= <-]. rewrite Nat.add_0_r. by split.
  - intros Hm. replace (i + S m)%nat with (S i + m)%nat by lia. by eapply IH.
Qed.

End GridElements.

Section GridFacts.

Import PulseBackground.

Variable random : nat -> Q.

Lemma element_fields i j n :
  exists k1 k2 k3 k4,
    let e := (element random i j n).1 in
    type e = at_index shapeTypes (Qfloor (random k1 * 3)) /\
    id e = pretty i +:+ "-" +:+ show (type e) +:+ "-" +:+ pretty j /\
    delay e = (random k2 * 6)%Q /\
    top e = (random k3 * 80 + 10)%Q /\
    left e = (random k4 * 80 + 10)%Q.
Proof.
  exists n, (S n), (S (S n)), (S (S (S n))).
  unfold element, mbind, Rand_bind, mret, Rand_ret, Math_random.
  cbn [fst]. rewrite shape_never_rotates. by cbn.
Qed.

End GridFacts.

(** X14: whatever [Math.random] returns within its range, every element of
    the pulse grid has a delay from 0 to below 6 seconds and a position from
    10 to below 90 percent of its cell in both directions. *)
Theorem pulse_elements_stay_inside (random : nat -> Q) :
  (forall k, (0 <= random k)%Q /\ (random k < 1)%Q) ->
  Forall (fun c =>
            Forall (fun e =>
                      (0 <= PulseBackground.delay e)%Q /\ (PulseBackground.delay e < 6)%Q /\
                      (10 <= PulseBackground.top e)%Q /\ (PulseBackground.top e < 90)%Q /\
                      (10 <= PulseBackground.left e)%Q /\ (PulseBackground.left e < 90)%Q)
                   (PulseBackground.elements c))
         (PulseBackground.newElements random).
Proof.
  intros Hr. unfold PulseBackground.newElements.
  apply Forall_lookup. intros m c Hc. apply Forall_lookup. intros k e He.
  eapply (cells_from_each random
            (fun _ _ e =>
               (0 <= PulseBackground.delay e)%Q /\ (PulseBackground.delay e < 6)%Q /\
               (10 <= PulseBackground.top e)%Q /\ (PulseBackground.top e < 90)%Q /\
               (10 <= PulseBackground.left e)%Q /\ (PulseBackground.left e < 90)%Q));
    [| exact Hc | exact He].
  intros i j n. destruct (element_fields random i j n) as (k1 & k2 & k3 & k4 & H).
  cbv zeta in H. destruct H as (_ & _ & -> & -> & ->).
  destruct (Hr k2), (Hr k3), (Hr k4). split_and!; lra.
Qed.

Lemma pulse_elements_stay_inside_witness :
  Forall (fun c =>
            Forall (fun e =>
                      (0 <= PulseBackground.delay e)%Q /\ (PulseBackground.delay e < 6)%Q /\
                      (10 <= PulseBackground.top e)%Q /\ (PulseBackground.top e < 90)%Q /\
                      (10 <= PulseBackground.left e)%Q /\ (PulseBackground.left e < 90)%Q)
                   (PulseBackground.elements c))
         (PulseBackground.newElements (fun _ => (9 # 10)%Q)).
Proof.
  apply (pulse_elements_stay_inside (fun _ => (9 # 10)%Q)).
  intros k. split; [discriminate | reflexivity].
Defined.

Lemma tagged_id_inj (t1 t2 : option string) (j1 j2 : nat) :
  (t1 = None \/ t1 ∈ (Some <$> PulseBackground.shapeTypes)) ->
  (t2 = None \/ t2 ∈ (Some <$> PulseBackground.shapeTypes)) ->
  PulseBackground.show t1 +:+ "-" +:+ pretty j1
    = PulseBackground.show t2 +:+ "-" +:+ pretty j2 ->
  j1 = j2.
Proof.
  assert (Hcases : forall t : option string,
            t = None \/ t ∈ (Some <$> PulseBackground.shapeTypes) ->
            t = None \/ t = Some "dot" \/ t = Some "circle" \/ t = Some "square").
  { intros t [-> | Ht]; [by left |]. right.
    unfold PulseBackground.shapeTypes in Ht. simpl in Ht.
    repeat (apply elem_of_cons in Ht as [-> | Ht]); eauto.
    by apply elem_of_nil in Ht. }
  intros H1%Hcases H2%Hcases.
  destruct H1 as [-> | [-> | [-> | ->]]], H2 as [-> | [-> | [-> | ->]]];
    simpl; intros Heq; try discriminate Heq;
    repeat (injection Heq as Heq);
    change (pretty j1 = pretty j2) in Heq; by apply (inj pretty) in Heq.
Qed.

Lemma shape_or_undefined (k : Z) :
  PulseBackground.at_index PulseBackground.shapeTypes k = None \/
  PulseBackground.at_index PulseBackground.shapeTypes k
    ∈ (Some <$> PulseBackground.shapeTypes).
Proof.
  unfold PulseBackground.at_index. destruct (k <? 0)%Z; [by left |].
  destruct (Z.to_nat k) as [| [| [| n]]]; simpl; [right | right | right | left];
    set_solver.
Qed.

Lemma cells_from_length (random : nat -> Q) (len : nat) : forall i n,
  length (PulseBackground.cells_from random i len n).1 = len.
Proof.
  induction len as [| len IH]; intros i n; [done |].
  simpl. unfold mbind, PulseBackground.Rand_bind, mret, PulseBackground.Rand_ret.
  destruct (PulseBackground.cell random i n) as [c0 n1].
  specialize (IH (S i) n1).
  destruct (PulseBackground.cells_from random (S i) len n1) as [cs n2].
  simpl in *. by rewrite IH.
Qed.

(** X15: the React keys of the pulse grid are distinct for every outcome of
    [Math.random], whether in its range or not: the cell ids are 0 to 299
    in order, and within a cell no two elements have the same id. *)
Theorem pulse_keys_are_distinct (random : nat -> Q) :
  PulseBackground.cellId <$> PulseBackground.newElements random = seq 0 300 /\
  Forall (fun c => NoDup (PulseBackground.id <$> PulseBackground.elements c))
         (PulseBackground.newElements random).
Proof.
  unfold PulseBackground.newElements.
  pose proof (cells_from_each random
    (fun i j e => exists t,
       (t = None \/ t ∈ (Some <$> PulseBackground.shapeTypes)) /\
       PulseBackground.id e
         = pretty i +:+ "-" +:+ PulseBackground.show t +:+ "-" +:+ pretty j)) as Hcells.
  pose proof (cells_from_length random 300 0%nat 0%nat) as Hlen.
  split.
  - apply list_eq. intros m. rewrite list_lookup_fmap.
    destruct (decide (m < 300)%nat) as [Hm | Hm].
    + rewrite lookup_seq_lt by done.
      destruct ((PulseBackground.cells_from random 0 300 0).1 !! m) as [c |] eqn:Hc;
        [| apply lookup_ge_None in Hc; lia].
      simpl. f_equal.
      eapply Hcells in Hc as [Hid _]; [exact Hid |].
      intros i j n. destruct (element_fields random i j n) as (k1 & k2 & k3 & k4 & H).
      cbv zeta in H. destruct H as (Ht & Hi & _).
      eexists. split; [| exact Hi]. rewrite Ht. apply shape_or_undefined.
    + rewrite lookup_seq_ge by lia. rewrite lookup_ge_None_2; [done | lia].
  - apply Forall_lookup. intros m c Hc.
    eapply Hcells in Hc as [_ Hel].
    2:{ intros i j n. destruct (element_fields random i j n) as (k1 & k2 & k3 & k4 & H).
        cbv zeta in H. destruct H as (Ht & Hi & _).
        eexists. split; [| exact Hi]. rewrite Ht. apply shape_or_undefined. }
    apply NoDup_alt. intros k1 k2 x. rewrite !list_lookup_fmap.
    destruct (PulseBackground.elements c !! k1) as [e1 |] eqn:H1; [| done].
    destruct (PulseBackground.elements c !! k2) as [e2 |] eqn:H2; [| done].
    simpl. intros [= <-] [= Heq].
    destruct (Hel k1 e1 H1) as (t1 & Ht1 & Hi1).
    destruct (Hel k2 e2 H2) as (t2 & Ht2 & Hi2).
    rewrite Hi1, Hi2 in Heq.
    apply (inj (String.append _)) in Heq. apply (inj (String.append _)) in Heq.
    symmetry. exact (tagged_id_inj t2 t1 k2 k1 Ht2 Ht1 Heq).
Qed.

(** ** The node network *)

Lemma clamp_within (v : Q) :
  (6 <= Qmax 6 (Qmin 94 (Qabs v)))%Q /\ (Qmax 6 (Qmin 94 (Qabs v)) <= 94)%Q.
Proof.
  split; [apply Q.le_max_l |].
  apply Q.max_lub; [discriminate | apply Q.le_min_l].
Qed.

(** X16: normalising the raw nodes keeps their ids and their order, puts
    every coordinate between 6 and 94, and gives the absolute value of a
    coordinate whose absolute value already lies between 6 and 94. *)
Theorem nodes_kept_off_the_edges (raw : list NodeNetworkBackground.Node) :
  NodeNetworkBackground.id <$> NodeNetworkBackground.normalize raw
    = NodeNetworkBackground.id <$> raw /\
  Forall (fun n => (6 <= NodeNetworkBackground.x n)%Q /\
                   (NodeNetworkBackground.x n <= 94)%Q /\
                   (6 <= NodeNetworkBackground.y n)%Q /\
                   (NodeNetworkBackground.y n <= 94)%Q)
         (NodeNetworkBackground.normalize raw) /\
  Forall2 (fun r n =>
             ((6 <= Qabs (NodeNetworkBackground.x r))%Q ->
              (Qabs (NodeNetworkBackground.x r) <= 94)%Q ->
              (NodeNetworkBackground.x n == Qabs (NodeNetworkBackground.x r))%Q) /\
             ((6 <= Qabs (NodeNetworkBackground.y r))%Q ->
              (Qabs (NodeNetworkBackground.y r) <= 94)%Q ->
              (NodeNetworkBackground.y n == Qabs (NodeNetworkBackground.y r))%Q))
          raw (NodeNetworkBackground.normalize raw).
Proof.
  unfold NodeNetworkBackground.normalize. split_and!.
  - rewrite <- list_fmap_compose. by apply list_fmap_ext.
  - apply Forall_fmap, Forall_true. intros n. simpl.
    destruct (clamp_within (NodeNetworkBackground.x n)).
    destruct (clamp_within (NodeNetworkBackground.y n)). done.
  - apply Forall2_fmap_r, Forall_Forall2_diag, Forall_true. intros r. simpl.
    split; intros Hlo Hhi; (rewrite Q.min_r by done); by rewrite Q.max_r.
Qed.

Lemma nodes_kept_off_the_edges_witness :
  Forall (fun n => (6 <= NodeNetworkBackground.x n)%Q /\
                   (NodeNetworkBackground.x n <= 94)%Q /\
                   (6 <= NodeNetworkBackground.y n)%Q /\
                   (NodeNetworkBackground.y n <= 94)%Q)
         (NodeNetworkBackground.normalize Samples.raw_nodes).
Proof. apply (nodes_kept_off_the_edges Samples.raw_nodes). Defined.

Section Network.

Import NodeNetworkBackground.

Variable sqrt : Q -> Q.

Lemma inner_spec i na rest : forall j,
  (length (inner sqrt i na j rest) <= length rest)%nat /\
  forall e, e ∈ inner sqrt i na j rest ->
    exists k nb, rest !! k = Some nb /\ linked sqrt i (j + k) na nb e.
Proof.
  induction rest as [| nb rest IH]; intros j; simpl.
  - split; [done |]. by intros e H%elem_of_nil.
  - destruct (IH (S j)) as [Hlen Hin]. split.
    + rewrite length_app. destruct (Qlt_le_dec _ _); simpl; lia.
    + intros e [He | He]%elem_of_app.
      * destruct (Qlt_le_dec (distance sqrt na nb) CONNECT_DISTANCE) as [Hd | Hd];
          [| by apply elem_of_nil in He].
        apply list_elem_of_singleton in He. subst e.
        exists 0%nat, nb. rewrite Nat.add_0_r. by split.
      * destruct (Hin e He) as (k & nb' & Hk & Hl).
        exists (S k), nb'. replace (j + S k)%nat with (S j + k)%nat by lia. by split.
Qed.

Lemma outer_spec nodes : forall i,
  (2 * length (outer sqrt i nodes) <= length nodes * (length nodes - 1))%nat /\
  forall e, e ∈ outer sqrt i nodes ->
    exists k1 k2 na nb,
      (k1 < k2)%nat /\ nodes !! k1 = Some na /\ nodes !! k2 = Some nb /\
      linked sqrt (i + k1) (i + k2) na nb e.
Proof.
  induction nodes as [| na rest IH]; intros i; simpl.
  - split; [done |]. by intros e H%elem_of_nil.
  - destruct (IH (S i)) as [Hlen Hin].
    destruct (inner_spec i na rest (S i)) as [Hlen' Hin']. split.
    + rewrite length_app. rewrite Nat.sub_0_r. nia.
    + intros e [He | He]%elem_of_app.
      * destruct (Hin' e He) as (k & nb & Hk & Hl).
        exists 0%nat, (S k), na, nb. rewrite Nat.add_0_r.
        replace (i + S k)%nat with (S i + k)%nat by lia.
        split_and!; [lia | done | done | done].
      * destruct (Hin e He) as (k1 & k2 & na' & nb' & Hlt & H1 & H2 & Hl).
        exists (S k1), (S k2), na', nb'.
        replace (i + S k1)%nat with (S i + k1)%nat by lia.
        replace (i + S k2)%nat with (S i + k2)%nat by lia.
        split_and!; [lia | done | done | done].
Qed.

Lemma inner_complete i na rest : forall j k nb,
  rest !! k = Some nb -> (distance sqrt na nb < CONNECT_DISTANCE)%Q ->
  exists e, e ∈ inner sqrt i na j rest /\ linked sqrt i (j + k) na nb e.
Proof.
  induction rest as [| nb0 rest IH]; intros j k nb; [done |].
  destruct k as [| k]; simpl.
  - intros [= ->] Hd.
    destruct (Qlt_le_dec (distance sqrt na nb) CONNECT_DISTANCE) as [Hd' | Hd'].
    + eexists. split; [apply elem_of_app; left; by apply list_elem_of_singleton |].
      rewrite Nat.add_0_r. by split.
    + exfalso. apply (Qlt_irrefl (distance sqrt na nb)).
      eapply Qlt_le_trans; eassumption.
  - intros Hk Hd. destruct (IH (S j) k nb Hk Hd) as (e & He & Hl).
    exists e. split; [apply elem_of_app; by right |].
    by replace (j + S k)%nat with (S j + k)%nat by lia.
Qed.

Lemma outer_complete nodes : forall i k1 k2 na nb,
  (k1 < k2)%nat -> nodes !! k1 = Some na -> nodes !! k2 = Some nb ->
  (distance sqrt na nb < CONNECT_DISTANCE)%Q ->
  exists e, e ∈ outer sqrt i nodes /\ linked sqrt (i + k1) (i + k2) na nb e.
Proof.
  induction nodes as [| n0 rest IH]; intros i k1 k2 na nb Hlt; [done |].
  destruct k2 as [| k2]; [lia |]. destruct k1 as [| k1]; simpl.
  - intros [= ->] Hk Hd.
    destruct (inner_complete i na rest (S i) k2 nb Hk Hd) as (e & He & Hl).
    exists e. split; [apply elem_of_app; by left |].
    rewrite Nat.add_0_r. by replace (i + S k2)%nat with (S i + k2)%nat by lia.
  - intros H1 H2 Hd.
    destruct (IH (S i) k1 k2 na nb) as (e & He & Hl); [lia | done | done | done |].
    exists e. split; [apply elem_of_app; by right |].
    replace (i + S k1)%nat with (S i + k1)%nat by lia.
    by replace (i + S k2)%nat with (S i + k2)%nat by lia.
Qed.

End Network.

(** X17: the edges of the node network are exactly the pairs of nodes at
    indices i < j whose distance is below 18, each once and labelled i-j:
    there are at most n(n-1)/2 of them, none from a node to itself; the
    opacity of an edge is at least 0.06, and at most 0.18 when [Math.sqrt]
    is not negative. *)
Theorem network_edges (sqrt : Q -> Q) (nodes : list NodeNetworkBackground.Node) :
  (2 * length (NodeNetworkBackground.edges sqrt nodes)
   <= length nodes * (length nodes - 1))%nat /\
  (forall e, e ∈ NodeNetworkBackground.edges sqrt nodes ->
     exists i j na nb,
       (i < j)%nat /\ nodes !! i = Some na /\ nodes !! j = Some nb /\
       NodeNetworkBackground.linked sqrt i j na nb e) /\
  (forall i j na nb,
     (i < j)%nat -> nodes !! i = Some na -> nodes !! j = Some nb ->
     (NodeNetworkBackground.distance sqrt na nb
      < NodeNetworkBackground.CONNECT_DISTANCE)%Q ->
     exists e, e ∈ NodeNetworkBackground.edges sqrt nodes /\
               NodeNetworkBackground.linked sqrt i j na nb e) /\
  (forall e, e ∈ NodeNetworkBackground.edges sqrt nodes ->
     (6 # 100 <= NodeNetworkBackground.opacity e)%Q /\
     ((forall v, 0 <= sqrt v)%Q -> (NodeNetworkBackground.opacity e <= 18 # 100)%Q)).
Proof.
  unfold NodeNetworkBackground.edges.
  destruct (outer_spec sqrt nodes 0%nat) as [Hlen Hin].
  split_and!; [exact Hlen | exact Hin | apply (outer_complete sqrt nodes 0%nat) |].
  intros e He. destruct (Hin e He) as (i & j & na & nb & _ & _ & _ & Hl).
  destruct Hl as (_ & _ & _ & _ & ->). split; [apply Q.le_max_l |].
  intros Hs. apply Q.max_lub; [discriminate |].
  unfold NodeNetworkBackground.distance.
  pose proof (Hs ((NodeNetworkBackground.x na - NodeNetworkBackground.x nb)
                  * (NodeNetworkBackground.x na - NodeNetworkBackground.x nb)
                  + (NodeNetworkBackground.y na - NodeNetworkBackground.y nb)
                    * (NodeNetworkBackground.y na - NodeNetworkBackground.y nb))%Q) as H.
  cbv zeta. set (d := sqrt _) in *.
  assert (Hd : (0 <= d / 100)%Q) by (apply Qle_shift_div_l; [reflexivity | lra]).
  set (t := (d / 100)%Q) in *. lra.
Qed.

Lemma network_edges_witness :
  Forall (fun e => (NodeNetworkBackground.opacity e <= 18 # 100)%Q)
    (NodeNetworkBackground.edges Samples.integer_sqrt
       (NodeNetworkBackground.normalize Samples.raw_nodes)).
Proof.
  apply Forall_forall. intros e He.
  destruct (network_edges Samples.integer_sqrt
              (NodeNetworkBackground.normalize Samples.raw_nodes))
    as (_ & _ & _ & H).
  apply (H e He). intros v. unfold Samples.integer_sqrt.
  change 0%Q with (inject_Z 0). rewrite <- Zle_Qle. apply Z.sqrt_nonneg.
Defined.
